(** * ghz: request driver and configuration loader

    A shallow embedding of the Go sources of the gRPC benchmarking tool:
    - package [config]: [Default], [Validate], [UnmarshalJSON], [parseConfig];
    - package [ghz]: [Run], [connect], [runWorkers], [runWorker],
      [makeRequest] and the three streaming call helpers.

    Go's [int] is taken as the 64-bit signed integer, written as [Z] with
    the wrap-around spelled out where the code does arithmetic.  An [error]
    is [option string]: [None] is Go's [nil].  Functions of the Go standard
    library and of gRPC that the code calls are fields of an interface
    record, so that every definition below stays executable once an
    instance is supplied. *)

From Stdlib Require Import ZArith String Ascii List Lia Bool DecimalString.
From stdpp Require Import base list strings.

#[local] Open Scope Z_scope.

(** Go's [error] interface value. *)
Definition error : Type := option string.

(** A decoded JSON value, as [interface{}] holds it after decoding. *)
#[warnings="-register-all"]
Inductive json : Type :=
| JNull
| JBool (b : bool)
| JNum (literal : string)
| JStr (s : string)
| JArr (items : list json)
| JObj (fields : list (string * json)).

(** ** Package config *)

Module Config.

(** [type Config struct].  [Z] is a [time.Duration], a count of
    nanoseconds; the two pointer fields are [None] when [nil]. *)
Record Config : Type := mkConfig {
  Proto : string;
  Call : string;
  Cert : string;
  N : Z;
  C : Z;
  QPS : Z;
  Z_ : Z;
  Timeout : Z;
  Data : option (list (string * json));
  DataPath : string;
  Metadata : option (list (string * string));
  MetadataPath : string;
  Format : string;
  Output : string;
  Host : string;
  CPUs : Z;
  ImportPaths : list string
}.

(** [&Config{}]: every field at its zero value. *)
Definition zeroConfig : Config :=
  {| Proto := ""; Call := ""; Cert := ""; N := 0; C := 0; QPS := 0; Z_ := 0;
     Timeout := 0; Data := None; DataPath := ""; Metadata := None;
     MetadataPath := ""; Format := ""; Output := ""; Host := ""; CPUs := 0;
     ImportPaths := [] |}.

Definition set_N (v : Z) (c : Config) : Config :=
  {| Proto := Proto c; Call := Call c; Cert := Cert c; N := v; C := C c;
     QPS := QPS c; Z_ := Z_ c; Timeout := Timeout c; Data := Data c;
     DataPath := DataPath c; Metadata := Metadata c;
     MetadataPath := MetadataPath c; Format := Format c; Output := Output c;
     Host := Host c; CPUs := CPUs c; ImportPaths := ImportPaths c |}.

Definition set_C (v : Z) (c : Config) : Config :=
  {| Proto := Proto c; Call := Call c; Cert := Cert c; N := N c; C := v;
     QPS := QPS c; Z_ := Z_ c; Timeout := Timeout c; Data := Data c;
     DataPath := DataPath c; Metadata := Metadata c;
     MetadataPath := MetadataPath c; Format := Format c; Output := Output c;
     Host := Host c; CPUs := CPUs c; ImportPaths := ImportPaths c |}.

Definition set_CPUs (v : Z) (c : Config) : Config :=
  {| Proto := Proto c; Call := Call c; Cert := Cert c; N := N c; C := C c;
     QPS := QPS c; Z_ := Z_ c; Timeout := Timeout c; Data := Data c;
     DataPath := DataPath c; Metadata := Metadata c;
     MetadataPath := MetadataPath c; Format := Format c; Output := Output c;
     Host := Host c; CPUs := v; ImportPaths := ImportPaths c |}.

Definition set_Z (v : Z) (c : Config) : Config :=
  {| Proto := Proto c; Call := Call c; Cert := Cert c; N := N c; C := C c;
     QPS := QPS c; Z_ := v; Timeout := Timeout c; Data := Data c;
     DataPath := DataPath c; Metadata := Metadata c;
     MetadataPath := MetadataPath c; Format := Format c; Output := Output c;
     Host := Host c; CPUs := CPUs c; ImportPaths := ImportPaths c |}.

(** The anonymous struct of [UnmarshalJSON]: a string field [Z] that
    shadows the duration, and the embedded [Alias] pointer to [c]. *)
Record Aux : Type := mkAux {
  aux_Z : string;
  aux_Alias : Config
}.

(** The library functions the package calls.
    - [json_Unmarshal data aux] is [json.Unmarshal(data, &aux)]: the
      struct after decoding and the returned error;
    - [time_ParseDuration s] is the pair [time.ParseDuration] returns;
    - [strings_TrimSpace], [filepath_Ext] and [runtime_GOMAXPROCS] are the
      functions of the same names. *)
Record Lib : Type := mkLib {
  json_Unmarshal : string -> Aux -> Aux * error;
  time_ParseDuration : string -> Z * error;
  strings_TrimSpace : string -> string;
  filepath_Ext : string -> string;
  runtime_GOMAXPROCS : Z -> Z
}.

(** [fmt.Sprintf("%d", v)]. *)
Definition itoa (v : Z) : string := NilZero.string_of_int (Z.to_int v).

(** [errors.Wrap(err, msg)] for a non-nil [err]. *)
Definition Wrap (err : string) (msg : string) : string :=
  (msg ++ ": " ++ err)%string.

Definition Default (L : Lib) (c : Config) : Config :=
  let c := if N c =? 0 then set_N 200 c else c in
  let c := if C c =? 0 then set_C 50 c else c in
  let c := if CPUs c =? 0 then set_CPUs (runtime_GOMAXPROCS L (-1)) c else c in
  c.

Definition requiredString (L : Lib) (s : string) : error :=
  if String.eqb (strings_TrimSpace L s) "" then Some "is required"%string
  else None.

Definition minValue (v : Z) (min : Z) : error :=
  if v <? min then Some ("must be at least " ++ itoa min)%string else None.

Definition Validate (L : Lib) (c : Config) : error :=
  match requiredString L (Proto c) with
  | Some err => Some (Wrap err "proto")
  | None =>
  if negb (String.eqb (filepath_Ext L (Proto c)) ".proto")
  then Some "proto: must have .proto extension"%string
  else
  match requiredString L (Call c) with
  | Some err => Some (Wrap err "call")
  | None =>
  match minValue (N c) 0 with
  | Some err => Some (Wrap err "n")
  | None =>
  match minValue (C c) 0 with
  | Some err => Some (Wrap err "c")
  | None =>
  match minValue (QPS c) 0 with
  | Some err => Some (Wrap err "q")
  | None =>
  match minValue (Timeout c) 0 with
  | Some err => Some (Wrap err "t")
  | None =>
  match minValue (CPUs c) 0 with
  | Some err => Some (Wrap err "cpus")
  | None =>
  if String.eqb (strings_TrimSpace L (DataPath c)) ""
  then match Data c with
       | None => Some "data: is required"%string
       | Some _ => None
       end
  else None
  end end end end end end end.

(** [UnmarshalJSON], a method of the pointer to [Config]: the receiver after
    the call and the error returned.  The error of [time.ParseDuration] is
    dropped by the blank identifier. *)
Definition UnmarshalJSON (L : Lib) (data : string) (c : Config)
  : Config * error :=
  let '(aux, err) := json_Unmarshal L data {| aux_Z := ""; aux_Alias := c |} in
  match err with
  | Some e => (aux_Alias aux, Some e)
  | None =>
      let '(d, _) := time_ParseDuration L (aux_Z aux) in
      (set_Z d (aux_Alias aux), None)
  end.

(** [func parseConfig(b []byte)]: the pair of the configuration pointer
    ([None] for nil) and the error.  [json.Unmarshal(b, c)] on a pointer to
    [Config] runs the method [UnmarshalJSON] above. *)
Definition parseConfig (L : Lib) (b : string) : option Config * error :=
  let c := zeroConfig in
  match UnmarshalJSON L b c with
  | (_, Some err) => (None, Some (Wrap err "parsing json"))
  | (c, None) =>
      let c := Default L c in
      match Validate L c with
      | Some err => (None, Some (Wrap err "validating"))
      | None => (Some c, None)
      end
  end.

Definition parseConfigString (L : Lib) (s : string) : option Config * error :=
  parseConfig L s.

End Config.

(** ** Package ghz *)

Module Ghz.

(** *** Integers and channels *)

(** Two's complement wrap-around of a 64-bit [int]. *)
Definition wrap (z : Z) : Z := (z + 2 ^ 63) mod 2 ^ 64 - 2 ^ 63.

Definition maxInt : Z := 2 ^ 63 - 1.

(** [a * b] and [a / b] on [int]; Go's division truncates toward zero. *)
Definition mul (a b : Z) : Z := wrap (a * b).
Definition div (a b : Z) : Z := wrap (Z.quot a b).

Definition min (a b : Z) : Z := if a <? b then a else b.

(** Max size of the buffer of result channel. *)
Definition maxResult : Z := 1000000.

(** A buffered channel that is still open: its capacity and the values
    waiting in the buffer, oldest first. *)
Record chan (A : Type) : Type := mkChan {
  cap : nat;
  buf : list A
}.
Arguments mkChan {A} _ _.
Arguments cap {A} _.
Arguments buf {A} _.

(** [make(chan A, size)]; a negative size panics ([None]). *)
Definition make {A : Type} (size : Z) : option (chan A) :=
  if size <? 0 then None else Some (mkChan (Z.to_nat size) []).

Inductive send_result (A : Type) : Type :=
| Sent (c : chan A)
| SendBlocks.
Arguments Sent {A} _.
Arguments SendBlocks {A}.

(** [c <- x]: the value is queued while the buffer has room; otherwise the
    sender blocks and the channel is left as it was. *)
Definition chan_send {A : Type} (c : chan A) (x : A) : send_result A :=
  if (length (buf c) <? cap c)%nat then Sent (mkChan (cap c) (buf c ++ [x]))
  else SendBlocks.

(** [<-c] when a value is ready: the value and the channel after it. *)
Definition chan_recv {A : Type} (c : chan A) : option (A * chan A) :=
  match buf c with
  | [] => None
  | x :: rest => Some (x, mkChan (cap c) rest)
  end.

(** *** Data of the package *)

Record Options : Type := mkOptions {
  Host : string;
  Cert : string;
  CName : string;
  N : Z;
  C : Z;
  QPS : Z;
  Z_ : Z;
  Timeout : Z;
  DialTimtout : Z;
  KeepaliveTime : Z;
  Insecure : bool
}.

(** result of a call *)
Record callResult : Type := mkCallResult {
  err : error;
  status : string;
  duration : Z
}.

(** What the code reads of a [desc.MethodDescriptor]. *)
Record MethodDescriptor : Type := mkMethod {
  mtd_name : string;
  IsClientStreaming : bool;
  IsServerStreaming : bool
}.

(** A [dynamic.Message], kept as its decoded field tree. *)
Definition Message : Type := json.

(** An error of a stream operation: [io.EOF] or a status error. *)
Inductive rpc_error : Type :=
| EOF
| StatusError (code : string) (msg : string).

(** The per-call context: its timeout in nanoseconds and the outgoing
    metadata, when attached. *)
Record context : Type := mkContext {
  ctx_timeout : Z;
  ctx_md : option (list (string * string))
}.

(** The operations a call performs on the stub and on its stream. *)
Inductive op : Type :=
| OpInvokeRpc (ctx : context) (input : Message)
| OpInvokeRpcClientStream (ctx : context)
| OpInvokeRpcServerStream (ctx : context) (input : Message)
| OpInvokeRpcBidiStream (ctx : context)
| OpSendMsg (payload : Message)
| OpRecvMsg
| OpCloseSend
| OpCloseAndReceive.

(** How the peer answers one call: the error of the invocation, the error
    of the k-th [SendMsg], the messages [RecvMsg] yields and the error that
    ends them ([EOF] when the stream completes normally). *)
Record stream : Type := mkStream {
  invoke_err : option rpc_error;
  send_err : nat -> option rpc_error;
  recv_msgs : list Message;
  recv_end : rpc_error
}.

(** What a streaming helper did: the operations in order, and the error it
    holds when it stops (the [err] of the receive loop after its [EOF] test
    when that loop ran, the outer [err] otherwise). *)
Record call_trace : Type := mkTrace {
  ops : list op;
  last_err : option rpc_error
}.

(** The dial options [connect] builds. *)
Inductive DialOption : Type :=
| WithInsecure
| WithTransportCredentials (cert : string) (cname : string)
| WithKeepaliveParams (time : Z) (timeout : Z)
| WithStatsHandler.

(** A [grpc.ClientConn], known by the host it was dialled to. *)
Record ClientConn : Type := mkConn {
  conn_host : string
}.

(** The surroundings of a run: the helpers of the package that render and
    build a call ([executeData], [executeMetadata], [createPayloads], keyed
    by the call number the template data is made from), the peer's answer to
    each call, the [CallResult] the stats handler builds when that call ends,
    and the library calls of [connect] ([NewClientTLSFromFile] is kept as the
    error it returns). *)
Record Env : Type := mkEnv {
  executeData : Z -> string -> json * error;
  executeMetadata : Z -> string -> option (list (string * string)) * error;
  createPayloads : json -> MethodDescriptor -> (Message * list Message) * error;
  peer : Z -> stream;
  statsResult : Z -> callResult;
  strings_TrimSpace : string -> string;
  NewClientTLSFromFile : string -> string -> error;
  DialContext : Z -> string -> list DialOption -> option ClientConn * error
}.

Record Requester : Type := mkRequester {
  mtd : MethodDescriptor;
  data : string;
  metadata : string;
  config : Options
}.

(** *** The call helpers *)

(** The send loop of [makeClientStreamingRequest], from [counter] on;
    [rest] holds [streamInput[counter:]]. *)
Fixpoint clientSendLoop (s : stream) (rest : list Message) (counter : nat)
  : call_trace :=
  match rest with
  | [] => {| ops := [OpCloseAndReceive]; last_err := None |}
  | payload :: rest' =>
      match send_err s counter with
      | Some EOF =>
          (* We get EOF on send if the server says "go away";
             CloseAndReceive gets the actual code *)
          {| ops := [OpSendMsg payload; OpCloseAndReceive];
             last_err := Some EOF |}
      | Some e => {| ops := [OpSendMsg payload]; last_err := Some e |}
      | None =>
          let t := clientSendLoop s rest' (S counter) in
          {| ops := OpSendMsg payload :: ops t; last_err := last_err t |}
      end
  end.

Definition makeClientStreamingRequest (s : stream) (ctx : context)
  (input : list Message) : call_trace :=
  match invoke_err s with
  | Some e => {| ops := [OpInvokeRpcClientStream ctx]; last_err := Some e |}
  | None =>
      let t := clientSendLoop s input 0 in
      {| ops := OpInvokeRpcClientStream ctx :: ops t; last_err := last_err t |}
  end.

(** The receive loop shared by the server-streaming and the bidirectional
    helper: [RecvMsg] is called until it returns an error. *)
Fixpoint recvLoop (msgs : list Message) : list op :=
  match msgs with
  | [] => [OpRecvMsg]
  | _ :: msgs' => OpRecvMsg :: recvLoop msgs'
  end.

(** [if err == io.EOF { err = nil }] on the error that ended the loop. *)
Definition afterRecv (e : rpc_error) : option rpc_error :=
  match e with
  | EOF => None
  | StatusError _ _ => Some e
  end.

Definition makeServerStreamingRequest (s : stream) (ctx : context)
  (input : Message) : call_trace :=
  match invoke_err s with
  | Some e =>
      {| ops := [OpInvokeRpcServerStream ctx input]; last_err := Some e |}
  | None =>
      {| ops := OpInvokeRpcServerStream ctx input :: recvLoop (recv_msgs s);
         last_err := afterRecv (recv_end s) |}
  end.

(** The send loop of [makeBidiRequest]: the operations and the value of
    [err] when the loop is left. *)
Fixpoint bidiSendLoop (s : stream) (rest : list Message) (counter : nat)
  : list op * option rpc_error :=
  match rest with
  | [] => ([OpCloseSend], None)
  | payload :: rest' =>
      match send_err s counter with
      | Some e => ([OpSendMsg payload], Some e)
      | None =>
          let '(l, e) := bidiSendLoop s rest' (S counter) in
          (OpSendMsg payload :: l, e)
      end
  end.

Definition makeBidiRequest (s : stream) (ctx : context)
  (input : list Message) : call_trace :=
  match invoke_err s with
  | Some e => {| ops := [OpInvokeRpcBidiStream ctx]; last_err := Some e |}
  | None =>
      let '(sent, err) := bidiSendLoop s input 0 in
      match err with
      | Some e =>
          (* the second [for err == nil] is not entered *)
          {| ops := OpInvokeRpcBidiStream ctx :: sent; last_err := Some e |}
      | None =>
          {| ops := OpInvokeRpcBidiStream ctx :: sent ++ recvLoop (recv_msgs s);
             last_err := afterRecv (recv_end s) |}
      end
  end.

(** [time.Second] in nanoseconds. *)
Definition Second : Z := 1000000000.

(** [makeRequest]: the new value of [reqCounter], and the operations of the
    call, or [None] when the function returned before issuing it. *)
Definition makeRequest (E : Env) (b : Requester) (reqCounter : Z)
  : Z * option (list op) :=
  let reqNum := wrap (reqCounter + 1) in
  let '(dataMap, err) := executeData E reqNum (data b) in
  match err with
  | Some _ => (reqNum, None)
  | None =>
  let '(mdMap, err) := executeMetadata E reqNum (metadata b) in
  match err with
  | Some _ => (reqNum, None)
  | None =>
  let reqMD :=
    match mdMap with
    | Some m => if (0 <? length m)%nat then Some m else None
    | None => None
    end in
  let '((input, streamInput), err) := createPayloads E dataMap (mtd b) in
  match err with
  | Some _ => (reqNum, None)
  | None =>
  let timeout := wrap (Timeout (config b) * Second) in
  let ctx := {| ctx_timeout := timeout; ctx_md := reqMD |} in
  let s := peer E reqNum in
  (reqNum,
   Some (if IsClientStreaming (mtd b) && IsServerStreaming (mtd b)
         then ops (makeBidiRequest s ctx streamInput)
         else if IsClientStreaming (mtd b)
         then ops (makeClientStreamingRequest s ctx streamInput)
         else if IsServerStreaming (mtd b)
         then ops (makeServerStreamingRequest s ctx input)
         else [OpInvokeRpc ctx input]))
  end end end.

(** One of the three steps before the call fails for the call that follows
    counter value [cnt]: the payload template, the metadata template or the
    building of the payload. *)
Definition render_fails (E : Env) (b : Requester) (cnt : Z) : Prop :=
  let reqNum := wrap (cnt + 1) in
  (executeData E reqNum (data b)).2 <> None \/
  (executeMetadata E reqNum (metadata b)).2 <> None \/
  (createPayloads E (executeData E reqNum (data b)).1 (mtd b)).2 <> None.

(** *** The worker pool *)

(** A ticker made by [time.Tick]: its period in nanoseconds, how many times
    the runtime has fired it, and whether a tick waits in its channel (the
    channel holds one tick; a tick that finds it full is dropped). *)
Record ticker : Type := mkTicker {
  period : Z;
  fired : nat;
  pending : bool
}.

(** [time.Duration(1e6/QPS) * time.Microsecond], for [QPS > 0]. *)
Definition tickPeriod (qps : Z) : Z := wrap (div 1000000 qps * 1000).

(** [time.Tick(d)]: the nil channel when [d <= 0], else a new ticker. *)
Definition time_Tick (d : Z) (ts : list ticker) : option nat * list ticker :=
  if d <=? 0 then (None, ts)
  else (Some (length ts), ts ++ [mkTicker d 0 false]).

(** Where a worker goroutine stands in [runWorker]. *)
Inductive pc : Type :=
| PStart                    (* before the throttle is set up *)
| PLoop                     (* at the loop test and the select *)
| PWait                     (* at the receive from throttle *)
| PCall                     (* about to run makeRequest *)
| PEmit (r : callResult)    (* call issued, its result being sent *)
| PDone.                    (* returned *)

(** What a worker has done, one entry per step. *)
Inductive event : Type :=
| EvStart (throttle : option nat)
| EvStop
| EvDefault
| EvThrottle (t : nat)
| EvRequest (reqNum : Z) (issued : option (list op))
| EvResult (r : callResult)
| EvReturn.

(** A worker: its place in the code, the loop variable [i], the bound [n],
    its [throttle] channel ([None] is the nil channel) and its history,
    newest entry first. *)
Record worker : Type := mkWorker {
  w_pc : pc;
  w_i : Z;
  w_n : Z;
  w_throttle : option nat;
  w_log : list event
}.

(** The state the goroutines share.  [reported] holds what the reporter
    goroutine has taken off [results] so far (the reporter is modelled from
    the spec, see [Finalize]). *)
Record pool : Type := mkPool {
  stopCh : chan bool;
  reqCounter : Z;
  tickers : list ticker;
  results : chan callResult;
  reported : list callResult;
  workers : list worker
}.

Definition set_workers (ws : list worker) (p : pool) : pool :=
  mkPool (stopCh p) (reqCounter p) (tickers p) (results p) (reported p) ws.

(** Modelled from the spec: the Stats Handler ([statsHandler]) is not among
    the sources.  When a call ends it emits the CallResult with a plain send
    on the result channel, inside the call, so the sender blocks while the
    buffer is full. *)
Definition statsHandler_emit (results : chan callResult) (r : callResult)
  : send_result callResult :=
  chan_send results r.

(** One step of the goroutine running [runWorker] in state [w]; [None]
    when the goroutine is blocked or has returned.  The result carries the
    pool with its shared fields updated, and the worker. *)
Definition worker_step (E : Env) (b : Requester) (p : pool) (w : worker)
  : option (pool * worker) :=
  match w_pc w with
  | PStart =>
      if QPS (config b) >? 0
      then
        let '(t, ts) := time_Tick (tickPeriod (QPS (config b))) (tickers p) in
        Some (mkPool (stopCh p) (reqCounter p) ts (results p) (reported p)
                (workers p),
              mkWorker PLoop 0 (w_n w) t (EvStart t :: w_log w))
      else
        Some (p, mkWorker PLoop 0 (w_n w) None (EvStart None :: w_log w))
  | PLoop =>
      if w_i w <? w_n w
      then
        match chan_recv (stopCh p) with
        | Some (_, ch) =>
            Some (mkPool ch (reqCounter p) (tickers p) (results p)
                    (reported p) (workers p),
                  mkWorker PDone (w_i w) (w_n w) (w_throttle w)
                    (EvStop :: w_log w))
        | None =>
            Some (p,
                  mkWorker (if QPS (config b) >? 0 then PWait else PCall)
                    (w_i w) (w_n w) (w_throttle w) (EvDefault :: w_log w))
        end
      else
        Some (p, mkWorker PDone (w_i w) (w_n w) (w_throttle w)
                   (EvReturn :: w_log w))
  | PWait =>
      match w_throttle w with
      | None => None
      | Some t =>
          match tickers p !! t with
          | Some tk =>
              if pending tk
              then
                Some (mkPool (stopCh p) (reqCounter p)
                        (<[t := mkTicker (period tk) (fired tk) false]>
                           (tickers p))
                        (results p) (reported p) (workers p),
                      mkWorker PCall (w_i w) (w_n w) (w_throttle w)
                        (EvThrottle t :: w_log w))
              else None
          | None => None
          end
      end
  | PCall =>
      let '(reqNum, issued) := makeRequest E b (reqCounter p) in
      let p' := mkPool (stopCh p) reqNum (tickers p) (results p) (reported p)
                  (workers p) in
      match issued with
      | None =>
          Some (p', mkWorker PLoop (w_i w + 1) (w_n w) (w_throttle w)
                      (EvRequest reqNum None :: w_log w))
      | Some l =>
          Some (p', mkWorker (PEmit (statsResult E reqNum)) (w_i w) (w_n w)
                      (w_throttle w) (EvRequest reqNum (Some l) :: w_log w))
      end
  | PEmit r =>
      match statsHandler_emit (results p) r with
      | Sent ch =>
          Some (mkPool (stopCh p) (reqCounter p) (tickers p) ch (reported p)
                  (workers p),
                mkWorker PLoop (w_i w + 1) (w_n w) (w_throttle w)
                  (EvResult r :: w_log w))
      | SendBlocks => None
      end
  | PDone => None
  end.

(** What can happen next in a run: worker [k] takes a step, the runtime
    fires ticker [t], [Stop] sends one sentinel, or the reporter takes one
    result off the channel. *)
Inductive action : Type :=
| AWorker (k : nat)
| ATick (t : nat)
| AStopSend
| AReport.

Definition step (E : Env) (b : Requester) (p : pool) (a : action) : pool :=
  match a with
  | AWorker k =>
      match workers p !! k with
      | None => p
      | Some w =>
          match worker_step E b p w with
          | None => p
          | Some (p', w') => set_workers (<[k := w']> (workers p')) p'
          end
      end
  | ATick t =>
      match tickers p !! t with
      | None => p
      | Some tk =>
          mkPool (stopCh p) (reqCounter p)
            (<[t := mkTicker (period tk) (S (fired tk)) true]> (tickers p))
            (results p) (reported p) (workers p)
      end
  | AStopSend =>
      match chan_send (stopCh p) true with
      | Sent ch =>
          mkPool ch (reqCounter p) (tickers p) (results p) (reported p)
            (workers p)
      | SendBlocks => p
      end
  | AReport =>
      match chan_recv (results p) with
      | Some (r, ch) =>
          mkPool (stopCh p) (reqCounter p) (tickers p) ch (reported p ++ [r])
            (workers p)
      | None => p
      end
  end.

(** A run of the pool under a schedule of actions. *)
Definition exec (E : Env) (b : Requester) (sched : list action) (p : pool)
  : pool :=
  fold_left (step E b) sched p.

Definition is_done (w : worker) : bool :=
  match w_pc w with
  | PDone => true
  | _ => false
  end.

(** [wg.Wait()] returns once every worker has returned. *)
Definition all_done (p : pool) : bool := forallb is_done (workers p).

(** The pool as [runWorkers] launches it: [C] goroutines, each about to
    run [runWorker(N / C)].  No goroutine is started, and nothing is
    divided, when [C] is not positive. *)
Definition runWorkers_init (b : Requester) (results : chan callResult)
  (stop : chan bool) : pool :=
  mkPool stop 0 [] results []
    (replicate (Z.to_nat (C (config b)))
       (mkWorker PStart 0 (div (N (config b)) (C (config b))) None [])).

(** The number of calls a worker has issued, and of calls it dropped
    before issuing them. *)
Definition is_issued (e : event) : bool :=
  match e with
  | EvRequest _ (Some _) => true
  | _ => false
  end.


Definition issued_calls (w : worker) : nat :=
  length (List.filter is_issued (w_log w)).


Definition total_issued (p : pool) : nat :=
  sum_list (map issued_calls (workers p)).

(** The calls a worker has started, issued or not, and the ticks it has
    taken from its throttle. *)
Definition is_request (e : event) : bool :=
  match e with
  | EvRequest _ _ => true
  | _ => false
  end.

Definition is_throttle (e : event) : bool :=
  match e with
  | EvThrottle _ => true
  | _ => false
  end.

Definition requests (w : worker) : nat :=
  length (List.filter is_request (w_log w)).

Definition waits (w : worker) : nat :=
  length (List.filter is_throttle (w_log w)).

(** Workers whose call is made and whose result is not yet on the
    channel. *)
Definition emitting (w : worker) : nat :=
  match w_pc w with
  | PEmit _ => 1
  | _ => 0
  end.


(** *** The order of a worker's steps *)

(** [may_follow qps_pos prev e]: entry [e] may come right after [prev] in
    the history of a worker ([None] for the empty history).  An iteration
    opens with the loop test and the select on the stop channel; the wait
    on the throttle, when [QPS > 0], comes after the select took its default
    branch; the call comes last.  Nothing comes after [EvStop] and
    [EvReturn]. *)
Definition may_follow (qps_pos : bool) (prev : option event) (e : event)
  : bool :=
  match e with
  | EvStart _ =>
      match prev with
      | None => true
      | _ => false
      end
  | EvStop | EvDefault | EvReturn =>
      match prev with
      | Some (EvStart _) | Some (EvRequest _ None) | Some (EvResult _) => true
      | _ => false
      end
  | EvThrottle _ =>
      match prev with
      | Some EvDefault => qps_pos
      | _ => false
      end
  | EvRequest _ _ =>
      match prev with
      | Some (EvThrottle _) => qps_pos
      | Some EvDefault => negb qps_pos
      | _ => false
      end
  | EvResult _ =>
      match prev with
      | Some (EvRequest _ (Some _)) => true
      | _ => false
      end
  end.

Fixpoint ordered (qps_pos : bool) (log : list event) : bool :=
  match log with
  | [] => true
  | e :: older => may_follow qps_pos (head older) e && ordered qps_pos older
  end.



(** *** Invariants of a run *)

(** The newest entry of a worker's history, given where the worker
    stands. *)
Definition pc_head (qp : bool) (c : pc) (h : option event) : bool :=
  match c with
  | PStart => match h with None => true | _ => false end
  | PLoop =>
      match h with
      | Some (EvStart _) | Some (EvRequest _ None) | Some (EvResult _) => true
      | _ => false
      end
  | PWait => match h with Some EvDefault => qp | _ => false end
  | PCall =>
      match h with
      | Some (EvThrottle _) => qp
      | Some EvDefault => negb qp
      | _ => false
      end
  | PEmit _ => match h with Some (EvRequest _ (Some _)) => true | _ => false end
  | PDone => match h with Some EvStop | Some EvReturn => true | _ => false end
  end.

(** What holds of one worker at every moment of a run with bound [n0];
    [qp] tells whether [QPS > 0]. *)
Record Wok (qp : bool) (n0 : Z) (w : worker) : Prop := {
  wok_order : ordered qp (w_log w) = true;
  wok_head : pc_head qp (w_pc w) (head (w_log w)) = true;
  wok_n : w_n w = n0;
  wok_i : 0 <= w_i w <= Z.max 0 n0;
  wok_requests : Z.of_nat (requests w) = w_i w + Z.of_nat (emitting w);
  wok_mid :
    match w_pc w with
    | PWait | PCall | PEmit _ => w_i w < n0
    | _ => True
    end;
  wok_waits : qp = true ->
    waits w = (requests w + match w_pc w with PCall => 1 | _ => 0 end)%nat;
  wok_done : w_pc w = PDone -> head (w_log w) = Some EvStop \/ n0 <= w_i w;
  wok_start : w_pc w = PStart -> w_log w = [] /\ w_throttle w = None;
  wok_throttle : qp = false -> w_throttle w = None
}.


(** An action other than a send of [Stop]. *)
Definition nonstop (a : action) : Prop := a <> AStopSend.





(** A worker held at its first wait: it has no ticker and has made no
    call. *)
Definition Parked (n0 : Z) (w : worker) : Prop :=
  w_throttle w = None /\ w_i w = 0 /\ w_n w = n0 /\
  (w_pc w = PStart \/ w_pc w = PLoop \/ w_pc w = PWait).

(** *** The driver *)

Definition createClientCredOption (E : Env) (cfg : Options)
  : option DialOption * error :=
  if Insecure cfg then (Some WithInsecure, None)
  else if negb (String.eqb (strings_TrimSpace E (Cert cfg)) "")
  then match NewClientTLSFromFile E (Cert cfg) (CName cfg) with
       | Some err => (None, Some err)
       | None => (Some (WithTransportCredentials (Cert cfg) (CName cfg)), None)
       end
  else (Some (WithTransportCredentials "" ""), None).

Definition connect (E : Env) (b : Requester) : option ClientConn * error :=
  match createClientCredOption E (config b) with
  | (_, Some err) => (None, Some err)
  | (credOptions, None) =>
      let opts := match credOptions with Some o => [o] | None => [] end in
      let dialTime := mul (DialTimtout (config b)) Second in
      let opts :=
        if KeepaliveTime (config b) >? 0
        then
          let timeout := mul (KeepaliveTime (config b)) Second in
          opts ++ [WithKeepaliveParams timeout timeout]
        else opts in
      let opts := opts ++ [WithStatsHandler] in
      DialContext E dialTime (Host (config b)) opts
  end.

Record Report : Type := mkReport {
  count : nat;
  details : list callResult
}.

(** Modelled from the spec: the Reporter ([newReporter], its [Run] and
    [Finalize]) is not among the sources.  It consumes the result channel
    until it is sealed, keeps an append-only list of details, and its count
    is the length of that list. *)
Definition Finalize (consumed : list callResult) : Report :=
  {| count := length consumed; details := consumed |}.

(** [Finish]: the channel is closed, the reporter takes what is still in
    it, and the report is made. *)
Definition Finish (p : pool) : Report :=
  Finalize (reported p ++ buf (results p)).

(** The stages [Run] went through. *)
Inductive stage : Type :=
| StConnect
| StReporter
| StWorkers
| StFinish
| StClose.

(** How a call of [Run] ends: a panic, the returned pair with the stages
    gone through, or workers that have not all returned when the schedule
    is used up. *)
Inductive run_result : Type :=
| RunPanic
| RunReturn (report : option Report) (e : error) (stages : list stage)
| RunWaiting (p : pool).

Definition Run (E : Env) (b : Requester) (sched : list action) : run_result :=
  match make (min (mul (C (config b)) 1000) maxResult) with
  | None => RunPanic
  | Some results =>
  match make (C (config b)) with
  | None => RunPanic
  | Some stopCh =>
  match connect E b with
  | (_, Some err) => RunReturn None (Some err) [StConnect]
  | (_, None) =>
      let p := exec E b sched (runWorkers_init b results stopCh) in
      if all_done p
      then RunReturn (Some (Finish p)) None
             [StConnect; StReporter; StWorkers; StFinish; StClose]
      else RunWaiting p
  end end end.

(** The pool of goroutines [Run] has launched, after the actions of
    [sched]; [None] when a channel could not be made. *)
Definition Run_pool (E : Env) (b : Requester) (sched : list action)
  : option pool :=
  match make (min (mul (C (config b)) 1000) maxResult) with
  | None => None
  | Some results =>
      match make (C (config b)) with
      | None => None
      | Some stopCh => Some (exec E b sched (runWorkers_init b results stopCh))
      end
  end.


(** Modelled from the spec: the transport, which is not among the sources,
    ends a call whose stream was read to its last error.  End-of-stream is
    the peer's normal indication that no further messages will arrive, not
    an error; any other error is the status of the call, a code name and a
    message. *)
Definition stream_end (s : stream) : option (string * string) :=
  match recv_end s with
  | EOF => None
  | StatusError code msg => Some (code, msg)
  end.

(** Modelled from the spec: the Stats Handler ([statsHandler]) is not among
    the sources.  On call-end it emits one CallResult with the duration, the
    status code name and the error text; a call that ends without error has
    status OK. *)
Definition handleEnd (e : option (string * string)) (d : Z) : callResult :=
  match e with
  | None => {| err := None; status := "OK"; duration := d |}
  | Some (code, msg) => {| err := Some msg; status := code; duration := d |}
  end.

End Ghz.

(** ** Sample instances

    Concrete libraries, documents and peers on which the definitions above
    are run. *)

Module Samples.

(** The double quote character, and a quoted JSON string. *)
Definition dq : string := String (ascii_of_nat 34) EmptyString.
Definition quoted (s : string) : string := (dq ++ s ++ dq)%string.

Definition is_space (a : ascii) : bool :=
  match nat_of_ascii a with
  | 9%nat | 10%nat | 11%nat | 12%nat | 13%nat | 32%nat => true
  | _ => false
  end.

Fixpoint trim_left (s : string) : string :=
  match s with
  | String a s' => if is_space a then trim_left s' else s
  | EmptyString => EmptyString
  end.

Fixpoint trim_right (s : string) : string :=
  match s with
  | String a s' =>
      match trim_right s' with
      | EmptyString => if is_space a then EmptyString else String a EmptyString
      | t => String a t
      end
  | EmptyString => EmptyString
  end.

(** [strings.TrimSpace] on ASCII text. *)
Definition TrimSpace (s : string) : string := trim_right (trim_left s).

(** [filepath.Ext] with the slash as separator: the suffix that starts at
    the last dot of the last path element. *)
Fixpoint ext_from (s : string) (cur : string) : string :=
  match s with
  | EmptyString => cur
  | String a s' =>
      if Ascii.eqb a "/" then ext_from s' EmptyString
      else if Ascii.eqb a "." then ext_from s' s
      else ext_from s' cur
  end.

Definition Ext (path : string) : string := ext_from path EmptyString.

(** A document with neither [n] nor [c] and a [z] that is no duration. *)
Definition doc_defaults : string :=
  ("{" ++ quoted "proto" ++ ":" ++ quoted "greeter.proto" ++ ","
       ++ quoted "call" ++ ":" ++ quoted "helloworld.Greeter.SayHello" ++ ","
       ++ quoted "z" ++ ":" ++ quoted "soon" ++ ","
       ++ quoted "data" ++ ":{}}")%string.

(** The same document with a negative concurrency. *)
Definition doc_negative : string :=
  ("{" ++ quoted "proto" ++ ":" ++ quoted "greeter.proto" ++ ","
       ++ quoted "call" ++ ":" ++ quoted "helloworld.Greeter.SayHello" ++ ","
       ++ quoted "c" ++ ":-1,"
       ++ quoted "data" ++ ":{}}")%string.

Definition decoded_defaults (c : Config.Config) : Config.Config :=
  Config.mkConfig "greeter.proto" "helloworld.Greeter.SayHello"
    (Config.Cert c) (Config.N c) (Config.C c) (Config.QPS c) (Config.Z_ c)
    (Config.Timeout c) (Some []) (Config.DataPath c) (Config.Metadata c)
    (Config.MetadataPath c) (Config.Format c) (Config.Output c)
    (Config.Host c) (Config.CPUs c) (Config.ImportPaths c).

(** A decoder that knows the two documents above and rejects any other
    text. *)
Definition sample_Unmarshal (data : string) (aux : Config.Aux)
  : Config.Aux * error :=
  if String.eqb data doc_defaults
  then (Config.mkAux "soon" (decoded_defaults (Config.aux_Alias aux)), None)
  else if String.eqb data doc_negative
  then (Config.mkAux (Config.aux_Z aux)
          (Config.set_C (-1) (decoded_defaults (Config.aux_Alias aux))), None)
  else (aux, Some "unexpected end of JSON input"%string).

(** A duration parser that knows ["10s"]; like [time.ParseDuration] it
    returns the zero duration next to an error. *)
Definition sample_ParseDuration (s : string) : Z * error :=
  if String.eqb s "10s" then (10000000000, None)
  else (0, Some ("time: invalid duration " ++ s)%string).

Definition sampleLib : Config.Lib :=
  Config.mkLib sample_Unmarshal sample_ParseDuration TrimSpace Ext
    (fun _ => 8).

(** A peer that accepts every message, answers with one message and ends
    the stream normally. *)
Definition okStream : Ghz.stream :=
  Ghz.mkStream None (fun _ => None) [JObj []] Ghz.EOF.

(** A peer that has already ended the stream when the first message is
    sent: [SendMsg] returns [io.EOF], and the status waits to be received. *)
Definition goAwayStream : Ghz.stream :=
  Ghz.mkStream None (fun _ => Some Ghz.EOF) []
    (Ghz.StatusError "Unavailable" "server shutting down").

Definition okResult : Ghz.callResult := Ghz.mkCallResult None "OK" 1000.

Definition dialOk (_ : Z) (host : string) (_ : list Ghz.DialOption)
  : option Ghz.ClientConn * error :=
  (Some (Ghz.mkConn host), None).

Definition dialFails (_ : Z) (_ : string) (_ : list Ghz.DialOption)
  : option Ghz.ClientConn * error :=
  (None, Some "context deadline exceeded"%string).

(** Templates render, payloads build, the peer answers every call. *)
Definition okEnv : Ghz.Env :=
  Ghz.mkEnv
    (fun _ _ => (JObj [], None))
    (fun _ _ => (None, None))
    (fun d _ => ((d, [d; d]), None))
    (fun _ => okStream)
    (fun _ => okResult)
    TrimSpace
    (fun _ _ => None)
    dialOk.

(** The payload template fails to render for every call. *)
Definition badTemplateEnv : Ghz.Env :=
  Ghz.mkEnv
    (fun _ _ => (JNull, Some "template: data: unexpected }"%string))
    (fun _ _ => (None, None))
    (fun d _ => ((d, [d; d]), None))
    (fun _ => okStream)
    (fun _ => okResult)
    TrimSpace
    (fun _ _ => None)
    dialOk.

(** The connection cannot be opened. *)
Definition noDialEnv : Ghz.Env :=
  Ghz.mkEnv
    (fun _ _ => (JObj [], None))
    (fun _ _ => (None, None))
    (fun d _ => ((d, [d; d]), None))
    (fun _ => okStream)
    (fun _ => okResult)
    TrimSpace
    (fun _ _ => None)
    dialFails.

Definition unary : Ghz.MethodDescriptor := Ghz.mkMethod "SayHello" false false.
Definition serverStream : Ghz.MethodDescriptor :=
  Ghz.mkMethod "SayHellos" false true.
Definition bidi : Ghz.MethodDescriptor := Ghz.mkMethod "SayHelloBidi" true true.

(** Options with [n], [c] and [qps] as given, insecure, 20 s timeout. *)
Definition options (n c qps : Z) : Ghz.Options :=
  Ghz.mkOptions "localhost:50051" "" "" n c qps 0 20 10 0 true.

Definition requester (n c qps : Z) : Ghz.Requester :=
  Ghz.mkRequester unary "{}" "null" (options n c qps).

Definition ctx0 : Ghz.context := Ghz.mkContext 20000000000 None.

(** The pool of a run with concurrency 2: a result channel of capacity 2000
    and a stop channel of capacity 2. *)
Definition pool2 (b : Ghz.Requester) : Ghz.pool :=
  Ghz.runWorkers_init b (Ghz.mkChan 2000 []) (Ghz.mkChan 2 []).

(** The pool of a run with concurrency 1. *)
Definition pool1 (b : Ghz.Requester) : Ghz.pool :=
  Ghz.runWorkers_init b (Ghz.mkChan 1000 []) (Ghz.mkChan 1 []).





(** Worker [k] alone, without throttle: its start, [n] iterations of
    select, call, send of the result and report, and its return. *)
Definition sched_worker (k : nat) (n : nat) : list Ghz.action :=
  Ghz.AWorker k
    :: concat (replicate n
                 [Ghz.AWorker k; Ghz.AWorker k; Ghz.AWorker k; Ghz.AReport])
    ++ [Ghz.AWorker k].

(** Two workers of two iterations each, one after the other. *)
Definition sched_two_workers : list Ghz.action :=
  sched_worker 0 2 ++ sched_worker 1 2.

End Samples.

(** ** Package config: data and metadata sources *)

Module ConfigFiles.
Import Config.

(** The library calls of the functions below: [ioutil.ReadFile], and
    [json.Unmarshal] into the [Data] and the [Metadata] field (the field
    after decoding and the error). *)
Record Files : Type := mkFiles {
  ioutil_ReadFile : string -> string * error;
  json_Unmarshal_Data :
    string -> option (list (string * json))
    -> option (list (string * json)) * error;
  json_Unmarshal_Metadata :
    string -> option (list (string * string))
    -> option (list (string * string)) * error
}.

Definition set_Data (v : option (list (string * json))) (c : Config)
  : Config :=
  {| Proto := Proto c; Call := Call c; Cert := Cert c; N := N c; C := C c;
     QPS := QPS c; Z_ := Z_ c; Timeout := Timeout c; Data := v;
     DataPath := DataPath c; Metadata := Metadata c;
     MetadataPath := MetadataPath c; Format := Format c; Output := Output c;
     Host := Host c; CPUs := CPUs c; ImportPaths := ImportPaths c |}.

Definition set_Metadata (v : option (list (string * string))) (c : Config)
  : Config :=
  {| Proto := Proto c; Call := Call c; Cert := Cert c; N := N c; C := C c;
     QPS := QPS c; Z_ := Z_ c; Timeout := Timeout c; Data := Data c;
     DataPath := DataPath c; Metadata := v;
     MetadataPath := MetadataPath c; Format := Format c; Output := Output c;
     Host := Host c; CPUs := CPUs c; ImportPaths := ImportPaths c |}.

(** The branch of [InitData] that reads [DataPath] and decodes the file
    into [c.Data]. *)
Definition loadData (F : Files) (c : Config) : Config * error :=
  let '(d, err) := ioutil_ReadFile F (DataPath c) in
  match err with
  | Some e => (c, Some e)
  | None =>
      let '(v, err) := json_Unmarshal_Data F d (Data c) in
      (set_Data v c, err)
  end.

(** [InitData]: the receiver after the call and the error. *)
Definition InitData (L : Lib) (F : Files) (c : Config) : Config * error :=
  match Data c with
  | Some _ => (c, None)
  | None =>
      if negb (String.eqb (strings_TrimSpace L (DataPath c)) "")
      then loadData F c
      else (c, Some "No data specified"%string)
  end.

(** [SetData] sets data based on input JSON string. *)
Definition SetData (L : Lib) (F : Files) (input : string) (c : Config)
  : Config * error :=
  if negb (String.eqb (strings_TrimSpace L input) "")
  then let '(v, err) := json_Unmarshal_Data F input (Data c) in
       (set_Data v c, err)
  else (c, None).

(** [SetMetadata] sets the metadata based on input JSON string. *)
Definition SetMetadata (L : Lib) (F : Files) (input : string) (c : Config)
  : Config * error :=
  if negb (String.eqb (strings_TrimSpace L input) "")
  then let '(v, err) := json_Unmarshal_Metadata F input (Metadata c) in
       (set_Metadata v c, err)
  else (c, None).

(** The branch of [InitMetadata] that reads [MetadataPath]. *)
Definition loadMetadata (F : Files) (c : Config) : Config * error :=
  let '(d, err) := ioutil_ReadFile F (MetadataPath c) in
  match err with
  | Some e => (c, Some e)
  | None =>
      let '(v, err) := json_Unmarshal_Metadata F d (Metadata c) in
      (set_Metadata v c, err)
  end.

Definition InitMetadata (L : Lib) (F : Files) (c : Config) : Config * error :=
  match Metadata c with
  | Some (_ :: _) => (c, None)
  | _ =>
      if negb (String.eqb (strings_TrimSpace L (MetadataPath c)) "")
      then loadMetadata F c
      else (c, None)
  end.

(** [ReadConfig] reads config from path. *)
Definition ReadConfig (L : Lib) (F : Files) (path : string)
  : option Config * error :=
  let '(b, err) := ioutil_ReadFile F path in
  match err with
  | Some e => (None, Some e)
  | None => parseConfig L b
  end.

(** What [Validate] asks of a configuration, check by check. *)
Definition Accepted (L : Lib) (c : Config) : Prop :=
  strings_TrimSpace L (Proto c) <> ""%string /\
  filepath_Ext L (Proto c) = ".proto"%string /\
  strings_TrimSpace L (Call c) <> ""%string /\
  0 <= N c /\ 0 <= C c /\ 0 <= QPS c /\ 0 <= Timeout c /\ 0 <= CPUs c /\
  (strings_TrimSpace L (DataPath c) = ""%string -> Data c <> None).

(** The messages [Validate] can return, in the order of its checks. *)
Definition Validate_messages : list string :=
  ["proto: is required"; "proto: must have .proto extension";
   "call: is required"; "n: must be at least 0"; "c: must be at least 0";
   "q: must be at least 0"; "t: must be at least 0";
   "cpus: must be at least 0"; "data: is required"]%string.

End ConfigFiles.

(** ** Package printer: the histogram *)

Module Printer.

(** A [ghz.Bucket] as the printer reads it: the mark, a [float64] kept
    abstract, and the count, an [int]. *)
Record Bucket (F : Type) : Type := mkBucket {
  Mark : F;
  Count : Z
}.
Arguments mkBucket {F} _ _.
Arguments Mark {F} _.
Arguments Count {F} _.

Definition barChar : string := "∎".

(** [a + b] on [int]. *)
Definition add (a b : Z) : Z := Ghz.wrap (a + b).

(** [strings.Repeat(s, count)]: it panics ([None]) on a negative count and
    when the length of the result overflows. *)
Definition Repeat (s : string) (count : Z) : option string :=
  if count <? 0 then None
  else if Z.of_nat (String.length s) * count >? Ghz.maxInt then None
  else Some (String.concat "" (replicate (Z.to_nat count) s)).

(** The first loop of [histogram]: the largest count, starting from 0. *)
Definition maxCount {F : Type} (buckets : list (Bucket F)) : Z :=
  fold_left (fun max b => if Count b >? max then Count b else max) buckets 0.

(** The length of the bar of a bucket with count [count].  Normalize bar
    lengths. *)
Definition barLen (max : Z) (count : Z) : Z :=
  if max >? 0
  then Ghz.div (add (Ghz.mul count 40) (Ghz.div max 2)) max
  else 0.

(** The lines [histogram] writes, in order; [Sprintf mark count bar] stands
    for [fmt.Sprintf("  %4.3f [%v]\t|%v\n", mark*1000, count, bar)].  [None]
    when [strings.Repeat] panics. *)
Fixpoint histogram_lines {F : Type} (Sprintf : F -> Z -> string -> string)
  (max : Z) (buckets : list (Bucket F)) : option (list string) :=
  match buckets with
  | [] => Some []
  | b :: rest =>
      match Repeat barChar (barLen max (Count b)) with
      | None => None
      | Some bar =>
          match histogram_lines Sprintf max rest with
          | None => None
          | Some lines => Some (Sprintf (Mark b) (Count b) bar :: lines)
          end
      end
  end.

Definition histogram {F : Type} (Sprintf : F -> Z -> string -> string)
  (buckets : list (Bucket F)) : option string :=
  option_map (String.concat "")
    (histogram_lines Sprintf (maxCount buckets) buckets).

(** The bar lengths of a histogram. *)
Definition bars {F : Type} (buckets : list (Bucket F)) : list Z :=
  map (fun b => barLen (maxCount buckets) (Count b)) buckets.

End Printer.

(** ** Package ghz: Stop, call numbers and credentials *)

Module GhzMore.
Import Ghz.

(** [Stop]: one send of a sentinel for each of the [C] workers. *)
Definition Stop (b : Requester) : list action :=
  replicate (Z.to_nat (C (config b))) AStopSend.

Definition is_stop_send (a : action) : bool :=
  match a with
  | AStopSend => true
  | _ => false
  end.

(** The sends of [Stop] in a schedule. *)
Definition stop_sends (sched : list action) : nat :=
  length (List.filter is_stop_send sched).

Definition is_stop (e : event) : bool :=
  match e with
  | EvStop => true
  | _ => false
  end.

(** The sentinels a worker has taken, and those the pool has taken. *)
Definition stopped (w : worker) : nat :=
  length (List.filter is_stop (w_log w)).

Definition total_stopped (p : pool) : nat :=
  sum_list (map stopped (workers p)).

(** The call numbers a worker has drawn from [reqCounter], newest first,
    and those of the whole pool. *)
Definition req_num (e : event) : option Z :=
  match e with
  | EvRequest n _ => Some n
  | _ => None
  end.

Definition req_nums (w : worker) : list Z := omap req_num (w_log w).

Definition all_req_nums (p : pool) : list Z :=
  concat (map req_nums (workers p)).

(** The calls the pool has started, issued or not. *)
Definition total_requests (p : pool) : nat :=
  sum_list (map requests (workers p)).

(** The counter of a pool is the number of calls started, and the call numbers
    drawn so far are the numbers from 1 to the counter. *)
Definition numbered (p : pool) : Prop :=
  reqCounter p = Z.of_nat (total_requests p) /\
  all_req_nums p ≡ₚ seqZ 1 (reqCounter p).

(** An operation that opens a call on the stub. *)
Definition is_invoke (o : op) : bool :=
  match o with
  | OpInvokeRpc _ _ | OpInvokeRpcClientStream _
  | OpInvokeRpcServerStream _ _ | OpInvokeRpcBidiStream _ => true
  | _ => false
  end.

(** The context an invocation was given. *)
Definition invoke_ctx (o : op) : option context :=
  match o with
  | OpInvokeRpc ctx _ | OpInvokeRpcClientStream ctx
  | OpInvokeRpcServerStream ctx _ | OpInvokeRpcBidiStream ctx => Some ctx
  | _ => None
  end.

(** The surroundings [E] with another loader of certificate files. *)
Definition with_loader (E : Env) (loader : string -> string -> error) : Env :=
  mkEnv (executeData E) (executeMetadata E) (createPayloads E) (peer E)
    (statsResult E) (strings_TrimSpace E) loader (DialContext E).

(** The surroundings [E] with another dial. *)
Definition with_dial (E : Env)
  (dial : Z -> string -> list DialOption -> option ClientConn * error) : Env :=
  mkEnv (executeData E) (executeMetadata E) (createPayloads E) (peer E)
    (statsResult E) (strings_TrimSpace E) (NewClientTLSFromFile E) dial.

End GhzMore.

(** ** More sample instances *)

Module MoreSamples.

(** A file system with one data file. *)
Definition sampleFiles : ConfigFiles.Files :=
  ConfigFiles.mkFiles
    (fun path =>
       if String.eqb path "data.json" then ("{}"%string, None)
       else (""%string, Some ("open " ++ path ++ ": no such file or directory")%string))
    (fun text old =>
       if String.eqb text "{}" then (Some [], None)
       else (old, Some "unexpected end of JSON input"%string))
    (fun text old =>
       if String.eqb text "{}" then (Some [], None)
       else (old, Some "unexpected end of JSON input"%string)).

(** A configuration that names a data file and has no inline data. *)
Definition config_with_path : Config.Config :=
  Config.mkConfig "greeter.proto" "helloworld.Greeter.SayHello" "" 200 50 0 0
    0 None "data.json" None "" "" "" "localhost:50051" 8 [].

(** A configuration with an inline metadata map that has no entry, and a
    metadata path to a file that does not exist. *)
Definition config_empty_metadata : Config.Config :=
  Config.mkConfig "greeter.proto" "helloworld.Greeter.SayHello" "" 200 50 0 0
    0 None "data.json" (Some []) "missing.json" "" "" "localhost:50051" 8 [].

End MoreSamples.

(** ** Properties of package config *)

Module ConfigProofs.
Import Config.

Lemma minValue_nil v m : minValue v m = None -> m <= v.
Proof.
  unfold minValue. destruct (v <? m) eqn:Hlt; [discriminate|].
  intros _. apply Z.ltb_ge in Hlt. exact Hlt.
Qed.

Lemma minValue_err v m : v < m -> exists e, minValue v m = Some e.
Proof.
  intros H. unfold minValue. apply Z.ltb_lt in H. rewrite H. eauto.
Qed.

(** What [Validate] has checked when it returns nil. *)
Lemma Validate_nil L c :
  Validate L c = None ->
  0 <= N c /\ 0 <= C c /\ 0 <= QPS c /\ 0 <= Timeout c /\ 0 <= CPUs c.
Proof.
  unfold Validate.
  destruct (requiredString L (Proto c)); [discriminate|].
  destruct (negb _); [discriminate|].
  destruct (requiredString L (Call c)); [discriminate|].
  destruct (minValue (N c) 0) eqn:HN; [discriminate|].
  destruct (minValue (C c) 0) eqn:HC; [discriminate|].
  destruct (minValue (QPS c) 0) eqn:HQ; [discriminate|].
  destruct (minValue (Timeout c) 0) eqn:HT; [discriminate|].
  destruct (minValue (CPUs c) 0) eqn:HP; [discriminate|].
  intros _. repeat split; now apply minValue_nil.
Qed.

(** A negative count makes [Validate] return an error. *)
Lemma Validate_negative L c :
  N c < 0 \/ C c < 0 \/ QPS c < 0 \/ Timeout c < 0 \/ CPUs c < 0 ->
  exists e, Validate L c = Some e.
Proof.
  intros H. destruct (Validate L c) eqn:HV; [eauto|].
  apply Validate_nil in HV. lia.
Qed.

Lemma Default_N L c : N (Default L c) = if N c =? 0 then 200 else N c.
Proof.
  unfold Default.
  destruct (N c =? 0), (C c =? 0) eqn:HC; cbn; rewrite ?HC; cbn;
    match goal with |- context [if ?b then _ else _] => destruct b end;
    reflexivity.
Qed.

Lemma Default_C L c : C (Default L c) = if C c =? 0 then 50 else C c.
Proof.
  unfold Default.
  destruct (N c =? 0), (C c =? 0) eqn:HC; cbn; rewrite ?HC; cbn;
    match goal with |- context [if ?b then _ else _] => destruct b end;
    cbn; rewrite ?HC; reflexivity.
Qed.

Lemma Default_QPS L c : QPS (Default L c) = QPS c.
Proof.
  unfold Default.
  destruct (N c =? 0); cbn; destruct (C c =? 0); cbn;
    match goal with |- context [if ?b then _ else _] => destruct b end;
    reflexivity.
Qed.

Lemma Default_Timeout L c : Timeout (Default L c) = Timeout c.
Proof.
  unfold Default.
  destruct (N c =? 0); cbn; destruct (C c =? 0); cbn;
    match goal with |- context [if ?b then _ else _] => destruct b end;
    reflexivity.
Qed.

Lemma Default_CPUs L c : CPUs c <> 0 -> CPUs (Default L c) = CPUs c.
Proof.
  intros H. apply Z.eqb_neq in H. unfold Default.
  destruct (N c =? 0); cbn; destruct (C c =? 0); cbn; rewrite H; reflexivity.
Qed.

Lemma Default_Z L c : Z_ (Default L c) = Z_ c.
Proof.
  unfold Default.
  destruct (N c =? 0); cbn; destruct (C c =? 0); cbn;
    match goal with |- context [if ?b then _ else _] => destruct b end;
    reflexivity.
Qed.

Lemma parseConfig_ok L b c :
  parseConfig L b = (Some c, None) ->
  exists d, UnmarshalJSON L b zeroConfig = (d, None) /\
            c = Default L d /\ Validate L c = None.
Proof.
  unfold parseConfig.
  destruct (UnmarshalJSON L b zeroConfig) as [d [e|]]; [discriminate|].
  destruct (Validate L (Default L d)) eqn:HV; [discriminate|].
  intros H. injection H as <-. eauto.
Qed.

(** C9: a configuration that [parseConfig] returns has concurrency at least
    1 and a total of calls at least 0.  A [c] that decodes to 0, as a zero
    or an absent key leaves it in the fresh [Config], is set to 50 (and such
    an [n] to 200) before validation, and a negative [c], [n], [qps],
    [timeout] or [cpus] makes [parseConfig] return an error. *)
Theorem parseConfig_valid (L : Lib) (b : string) :
  (forall c, parseConfig L b = (Some c, None) -> 1 <= C c /\ 0 <= N c) /\
  (forall d, UnmarshalJSON L b zeroConfig = (d, None) ->
     (forall c, parseConfig L b = (Some c, None) ->
        C c = (if C d =? 0 then 50 else C d) /\
        N c = (if N d =? 0 then 200 else N d)) /\
     (N d < 0 \/ C d < 0 \/ QPS d < 0 \/ Timeout d < 0 \/ CPUs d < 0 ->
      exists e, parseConfig L b = (None, Some e))).
Proof.
  split.
  - intros c Hc. apply parseConfig_ok in Hc as (d & _ & -> & HV).
    apply Validate_nil in HV as (HN & HC & _).
    rewrite Default_C in *. rewrite Default_N in *.
    destruct (C d =? 0) eqn:E1; [lia|]. apply Z.eqb_neq in E1. lia.
  - intros d Hd. split.
    + intros c Hc. apply parseConfig_ok in Hc as (d' & Hd' & -> & _).
      rewrite Hd in Hd'. injection Hd' as <-.
      now rewrite Default_C, Default_N.
    + intros Hneg. unfold parseConfig. rewrite Hd.
      destruct (Validate_negative L (Default L d)) as [e He].
      { rewrite Default_N, Default_C, Default_QPS, Default_Timeout.
        destruct Hneg as [H|[H|[H|[H|H]]]].
        - left. destruct (N d =? 0) eqn:E; [apply Z.eqb_eq in E; lia|lia].
        - right; left.
          destruct (C d =? 0) eqn:E; [apply Z.eqb_eq in E; lia|lia].
        - tauto.
        - tauto.
        - rewrite Default_CPUs by lia. tauto. }
      rewrite He. eauto.
Qed.

(** C10: when the document decodes and its [z] is a string that
    [time.ParseDuration] rejects (it then returns the zero duration next to
    its error), [UnmarshalJSON] returns nil with [Z] set to zero, so
    [parseConfig] does not fail at parsing and any configuration it returns
    has no maximum duration. *)
Theorem UnmarshalJSON_bad_duration (L : Lib) (data : string) (aux : Aux)
  (e : string) :
  json_Unmarshal L data {| aux_Z := ""; aux_Alias := zeroConfig |}
    = (aux, None) ->
  time_ParseDuration L (aux_Z aux) = (0, Some e) ->
  UnmarshalJSON L data zeroConfig = (set_Z 0 (aux_Alias aux), None) /\
  (forall err, parseConfig L data <> (None, Some (Wrap err "parsing json"))) /\
  (forall c, parseConfig L data = (Some c, None) -> Z_ c = 0) /\
  (Validate L (Default L (set_Z 0 (aux_Alias aux))) = None ->
   exists c, parseConfig L data = (Some c, None) /\ Z_ c = 0).
Proof.
  intros Hjson Hdur.
  assert (HU : UnmarshalJSON L data zeroConfig
               = (set_Z 0 (aux_Alias aux), None)).
  { unfold UnmarshalJSON. rewrite Hjson, Hdur. reflexivity. }
  split; [exact HU|]. split; [|split].
  - intros err. unfold parseConfig. rewrite HU.
    destruct (Validate L _); [|discriminate].
    unfold Wrap. cbn. discriminate.
  - intros c Hc. apply parseConfig_ok in Hc as (d & Hd & -> & _).
    rewrite HU in Hd. injection Hd as <-. now rewrite Default_Z.
  - intros HV. unfold parseConfig. rewrite HU, HV.
    eexists. split; [reflexivity|]. now rewrite Default_Z.
Qed.

(** The document without [n] and [c] is accepted with the defaults, and the
    one with a negative [c] is refused. *)
Lemma parseConfig_valid_witness :
  (exists c, parseConfig Samples.sampleLib Samples.doc_defaults = (Some c, None)
             /\ (1 <= C c /\ 0 <= N c) /\ (C c = 50 /\ N c = 200)) /\
  (exists e, parseConfig Samples.sampleLib Samples.doc_negative
             = (None, Some e)).
Proof.
  destruct (parseConfig_valid Samples.sampleLib Samples.doc_defaults)
    as [H1 H2].
  destruct (parseConfig_valid Samples.sampleLib Samples.doc_negative)
    as [_ H3].
  split.
  - eexists. split; [vm_compute; reflexivity|]. split.
    + apply H1. vm_compute. reflexivity.
    + edestruct H2 as [Ha _]; [vm_compute; reflexivity|].
      edestruct Ha as [Hc Hn]; [vm_compute; reflexivity|].
      split; [exact Hc | exact Hn].
  - edestruct H3 as [_ Hb]; [vm_compute; reflexivity|].
    apply Hb. right; left. vm_compute. reflexivity.
Defined.

(** The [z] of the sample document is the string "soon": parsing goes
    through and the configuration carries the zero duration. *)
Lemma UnmarshalJSON_bad_duration_witness :
  exists c, parseConfig Samples.sampleLib Samples.doc_defaults = (Some c, None)
            /\ Z_ c = 0.
Proof.
  edestruct (UnmarshalJSON_bad_duration Samples.sampleLib Samples.doc_defaults)
    as (_ & _ & _ & H).
  - vm_compute. reflexivity.
  - vm_compute. reflexivity.
  - apply H. vm_compute. reflexivity.
Defined.

End ConfigProofs.

(** ** Properties of package ghz *)

Module GhzProofs.
Import Ghz.

(** *** The streaming helpers *)

Lemma recvLoop_replicate msgs :
  recvLoop msgs = replicate (S (length msgs)) OpRecvMsg.
Proof.
  induction msgs as [|m msgs IH]; [reflexivity|].
  cbn [recvLoop length]. rewrite IH. reflexivity.
Qed.

(** C7: a server-streaming call sends its one request with the invocation
    and then calls [RecvMsg] until the stream ends: once per message and
    once more for the end-of-stream.  The helper takes [io.EOF] as no error,
    and the call is recorded with status OK and no error text. *)
Theorem makeServerStreamingRequest_eof (s : stream) (ctx : context)
  (input : Message) (d : Z) :
  invoke_err s = None ->
  recv_end s = EOF ->
  makeServerStreamingRequest s ctx input
    = {| ops := OpInvokeRpcServerStream ctx input
                  :: replicate (S (length (recv_msgs s))) OpRecvMsg;
         last_err := None |} /\
  status (handleEnd (stream_end s) d) = "OK"%string /\
  err (handleEnd (stream_end s) d) = None.
Proof.
  intros Hinv Hend. unfold makeServerStreamingRequest, stream_end.
  rewrite Hinv, Hend, recvLoop_replicate. cbn. auto.
Qed.

Lemma makeServerStreamingRequest_eof_witness :
  ops (makeServerStreamingRequest Samples.okStream Samples.ctx0 (JObj []))
    = [OpInvokeRpcServerStream Samples.ctx0 (JObj []); OpRecvMsg; OpRecvMsg]
  /\ status (handleEnd (stream_end Samples.okStream) 1000) = "OK"%string.
Proof.
  destruct (makeServerStreamingRequest_eof Samples.okStream Samples.ctx0
              (JObj []) 1000) as (H1 & H2 & _).
  - reflexivity.
  - reflexivity.
  - split; [rewrite H1; reflexivity | exact H2].
Defined.

(** The operations of the bidirectional send loop are sends and at most a
    closing [CloseSend]: it never receives. *)
Lemma bidiSendLoop_no_recv s rest counter :
  OpRecvMsg ∉ (bidiSendLoop s rest counter).1.
Proof.
  revert counter. induction rest as [|m rest IH]; intros counter; cbn.
  - intros H. apply list_elem_of_singleton in H. discriminate.
  - destruct (send_err s counter).
    + cbn. intros H. apply list_elem_of_singleton in H. discriminate.
    + specialize (IH (S counter)).
      destruct (bidiSendLoop s rest (S counter)) as [l e]. cbn in *.
      intros H. apply elem_of_cons in H as [H|H]; [discriminate|tauto].
Qed.

Lemma bidiSendLoop_error_no_close s rest counter e :
  (bidiSendLoop s rest counter).2 = Some e ->
  OpCloseSend ∉ (bidiSendLoop s rest counter).1.
Proof.
  revert counter. induction rest as [|m rest IH]; intros counter; cbn.
  - discriminate.
  - destruct (send_err s counter).
    + cbn. intros _ H. apply list_elem_of_singleton in H. discriminate.
    + specialize (IH (S counter)).
      destruct (bidiSendLoop s rest (S counter)) as [l e']. cbn in *.
      intros He H. apply elem_of_cons in H as [H|H]; [discriminate|tauto].
Qed.

(** The send loop ends with an error exactly when some [SendMsg] fails. *)
Lemma bidiSendLoop_error s rest counter k e :
  (k < length rest)%nat ->
  (forall j, (j < k)%nat -> send_err s (counter + j) = None) ->
  send_err s (counter + k) = Some e ->
  (bidiSendLoop s rest counter).2 = Some e.
Proof.
  revert counter k. induction rest as [|m rest IH]; intros counter k Hk Hbefore Hat.
  - cbn in Hk. lia.
  - cbn. destruct k as [|k].
    + rewrite Nat.add_0_r in Hat. rewrite Hat. reflexivity.
    + pose proof (Hbefore 0%nat ltac:(lia)) as H0.
      rewrite Nat.add_0_r in H0. rewrite H0.
      specialize (IH (S counter) k).
      destruct (bidiSendLoop s rest (S counter)) as [l e']. cbn in *.
      apply IH.
      * lia.
      * intros j Hj. replace (S (counter + j)) with (counter + S j)%nat by lia.
        apply Hbefore. lia.
      * replace (S (counter + k)) with (counter + S k)%nat by lia. exact Hat.
Qed.

(** C2, what the code does: when a [SendMsg] of a bidirectional call
    returns an error, whatever the error, [makeBidiRequest] stops there.
    The receive loop is not entered, so no [RecvMsg] is made and the final
    status is not read, and the sending side is not closed. *)
Theorem makeBidiRequest_send_error (s : stream) (ctx : context)
  (input : list Message) (k : nat) (e : rpc_error) :
  invoke_err s = None ->
  (k < length input)%nat ->
  (forall j, (j < k)%nat -> send_err s j = None) ->
  send_err s k = Some e ->
  (OpRecvMsg ∉ ops (makeBidiRequest s ctx input)) /\
  (OpCloseSend ∉ ops (makeBidiRequest s ctx input)) /\
  last_err (makeBidiRequest s ctx input) = Some e.
Proof.
  intros Hinv Hk Hbefore Hat.
  pose proof (bidiSendLoop_error s input 0 k e Hk Hbefore Hat) as Herr.
  pose proof (bidiSendLoop_no_recv s input 0) as Hrecv.
  pose proof (bidiSendLoop_error_no_close s input 0 e Herr) as Hclose.
  unfold makeBidiRequest. rewrite Hinv.
  destruct (bidiSendLoop s input 0) as [l e']. cbn in *. subst e'. cbn.
  repeat split; try reflexivity.
  - intros H. apply elem_of_cons in H as [H|H]; [discriminate|tauto].
  - intros H. apply elem_of_cons in H as [H|H]; [discriminate|tauto].
Qed.

(** The failing call: the peer has ended the stream, the first [SendMsg]
    returns [io.EOF], and the helper returns without one [RecvMsg].  On the
    same peer the client-streaming helper goes on to [CloseAndReceive]. *)
Lemma makeBidiRequest_send_error_witness :
  ops (makeBidiRequest Samples.goAwayStream Samples.ctx0 [JObj []])
    = [OpInvokeRpcBidiStream Samples.ctx0; OpSendMsg (JObj [])] /\
  (OpRecvMsg
     ∉ ops (makeBidiRequest Samples.goAwayStream Samples.ctx0 [JObj []])) /\
  ops (makeClientStreamingRequest Samples.goAwayStream Samples.ctx0 [JObj []])
    = [OpInvokeRpcClientStream Samples.ctx0; OpSendMsg (JObj []);
       OpCloseAndReceive].
Proof.
  split; [reflexivity|]. split; [|reflexivity].
  apply (makeBidiRequest_send_error Samples.goAwayStream Samples.ctx0
           [JObj []] 0 EOF).
  - reflexivity.
  - cbn. lia.
  - intros j Hj. lia.
  - reflexivity.
Defined.

(** *** Integers and channels *)

Lemma wrap_small z : - 2 ^ 63 <= z <= maxInt -> wrap z = z.
Proof.
  unfold wrap, maxInt. intros H.
  rewrite Z.mod_small; lia.
Qed.

Lemma min_spec a b : min a b = Z.min a b.
Proof.
  unfold min. destruct (a <? b) eqn:H.
  - apply Z.ltb_lt in H. lia.
  - apply Z.ltb_ge in H. lia.
Qed.

Lemma div_nonneg n c : 0 <= n <= maxInt -> 1 <= c -> div n c = n / c.
Proof.
  intros Hn Hc. unfold div.
  rewrite Z.quot_div_nonneg by lia.
  apply wrap_small. unfold maxInt in *.
  assert (0 <= n / c) by (apply Z.div_pos; lia).
  assert (n / c <= n) by (apply Z.div_le_upper_bound; nia).
  lia.
Qed.



(** The capacity of the result channel, for a concurrency whose product
    with 1000 is an [int]. *)
Lemma results_cap_value b :
  0 <= C (config b) -> C (config b) * 1000 <= maxInt ->
  make (A := callResult) (min (mul (C (config b)) 1000) maxResult)
    = Some (mkChan (Z.to_nat (Z.min (C (config b) * 1000) 1000000)) []).
Proof.
  intros H0 Hmax. unfold mul. rewrite wrap_small by (unfold maxInt in *; lia).
  rewrite min_spec. unfold make, maxResult.
  destruct (Z.min (C (config b) * 1000) 1000000 <? 0) eqn:E; [|reflexivity].
  apply Z.ltb_lt in E. lia.
Qed.

Lemma make_stop b :
  0 <= C (config b) ->
  make (A := bool) (C (config b)) = Some (mkChan (Z.to_nat (C (config b))) []).
Proof.
  intros H. unfold make.
  destruct (C (config b) <? 0) eqn:E; [|reflexivity].
  apply Z.ltb_lt in E. lia.
Qed.

(** *** The driver *)

(** C6: when [connect] returns an error, because the credentials cannot be
    built or because the dial fails, [Run] returns that error and a nil
    report right after the connection stage: the reporter is not started,
    no worker runs and nothing is finished into a report. *)
Theorem Run_connect_error (E : Env) (b : Requester) (sched : list action)
  (e : string) :
  0 <= C (config b) ->
  C (config b) * 1000 <= maxInt ->
  (connect E b).2 = Some e ->
  Run E b sched = RunReturn None (Some e) [StConnect].
Proof.
  intros H0 Hmax Hconn. unfold Run.
  rewrite results_cap_value, make_stop by assumption.
  destruct (connect E b) as [cc [e'|]]; cbn in Hconn; [|discriminate].
  injection Hconn as ->. reflexivity.
Qed.

(** An error of the dial is the error of [connect]. *)
Lemma connect_dial_error E b cred cc e :
  createClientCredOption E (config b) = (cred, None) ->
  (forall t opts, DialContext E t (Host (config b)) opts = (cc, Some e)) ->
  connect E b = (cc, Some e).
Proof.
  intros Hcred Hdial. unfold connect. rewrite Hcred. apply Hdial.
Qed.

Lemma Run_connect_error_witness :
  Run Samples.noDialEnv (Samples.requester 200 50 0) [AWorker 0; AReport]
    = RunReturn None (Some "context deadline exceeded"%string) [StConnect].
Proof.
  apply Run_connect_error.
  - cbn. lia.
  - vm_compute. discriminate.
  - reflexivity.
Defined.

(** *** Invariants of the worker pool *)

Ltac wstep_cases H :=
  unfold worker_step in H;
  repeat match type of H with
  | context [match ?x with _ => _ end] => destruct x eqn:?
  end; try discriminate; injection H as <- <-.

(** A step of a worker keeps what holds of it. *)
Lemma worker_step_Wok E b p w p' w' n0 :
  Wok (QPS (config b) >? 0) n0 w ->
  worker_step E b p w = Some (p', w') ->
  Wok (QPS (config b) >? 0) n0 w'.
Proof.
  destruct w as [c i n t log].
  intros [Ho Hh Hn Hi Hr Hm Hw Hd Hs Ht] Hstep.
  unfold requests, waits, emitting in *; cbn in *.
  destruct c; cbn in *.
  all: wstep_cases Hstep.
  all: try match goal with H : time_Tick _ _ = _ |- _ => clear H end.
  all: try match goal with H : (_ <? _) = true |- _ => apply Z.ltb_lt in H end.
  all: try match goal with H : (_ <? _) = false |- _ => apply Z.ltb_ge in H end.
  all: constructor; unfold requests, waits, emitting; cbn.
  all: try (destruct (QPS (config b) >? 0) eqn:Hq).
  all: cbn; try tauto; try congruence; try lia.
  all: try (rewrite Ho, ?andb_true_r; destruct log as [|[] ?]; cbn in *; congruence).
  all: try (intros; (left; congruence) || (right; lia)).
  all: try (destruct (Hs eq_refl) as [-> ->]; cbn; tauto).
  all: try (exfalso; destruct log as [|[] ?]; cbn in *; congruence).
Qed.

(** What a step of a worker may change in the pool: nothing of the
    workers, the capacities or the reporter; of the tickers either nothing,
    or a new ticker at the end for a worker that starts, or the pending tick
    of the worker's own ticker. *)
Lemma worker_step_inv E b p w p' w' :
  worker_step E b p w = Some (p', w') ->
  workers p' = workers p /\
  cap (results p') = cap (results p) /\
  cap (stopCh p') = cap (stopCh p) /\
  reported p' = reported p /\
  ((tickers p' = tickers p /\ w_throttle w' = w_throttle w /\
    waits w' = waits w) \/
   (w_pc w = PStart /\ w_throttle w' = None /\ tickers p' = tickers p /\
    waits w' = waits w) \/
   (w_pc w = PStart /\ w_throttle w' = Some (length (tickers p)) /\
    tickers p' = tickers p ++ [mkTicker (tickPeriod (QPS (config b))) 0 false] /\
    waits w' = waits w) \/
   (exists t tk, w_throttle w = Some t /\ tickers p !! t = Some tk /\
      pending tk = true /\
      tickers p' = <[t := mkTicker (period tk) (fired tk) false]> (tickers p) /\
      w_throttle w' = Some t /\ waits w' = S (waits w))).
Proof.
  destruct w as [c i n t log]. intros Hstep.
  destruct c; cbn in *.
  all: wstep_cases Hstep; cbn.
  all: unfold statsHandler_emit, chan_send, chan_recv, time_Tick in *.
  all: repeat match goal with
       | H : context [if ?x then _ else _] |- _ => destruct x eqn:?
       | H : context [match ?x with _ => _ end] |- _ => destruct x eqn:?
       end.
  all: repeat match goal with
       | H : Some _ = Some _ |- _ => injection H as ? ?; subst
       | H : Sent _ = Sent _ |- _ => injection H as ?; subst
       | H : (_, _) = (_, _) |- _ => injection H as ? ?; subst
       end; try discriminate.
  all: cbn; repeat (split; [reflexivity|]); unfold waits; cbn.
  all: first [ solve [left; auto]
             | solve [right; left; auto]
             | solve [right; right; left; eauto 10]
             | solve [right; right; right; eauto 10] ].
Qed.


Lemma sum_list_insert {A} (f : A -> nat) (l : list A) k x y :
  l !! k = Some x ->
  (sum_list (map f (<[k:=y]> l)) + f x = sum_list (map f l) + f y)%nat.
Proof.
  revert k. induction l as [|a l IH]; intros k Hk; [discriminate|].
  destruct k as [|k]; simpl in *.
  - injection Hk as ->. lia.
  - specialize (IH k Hk). lia.
Qed.

Lemma step_worker E b p k w p' w' :
  workers p !! k = Some w ->
  worker_step E b p w = Some (p', w') ->
  step E b p (AWorker k) = set_workers (<[k:=w']> (workers p)) p'.
Proof.
  intros Hk Hstep. cbn. rewrite Hk, Hstep.
  apply worker_step_inv in Hstep as (-> & _). reflexivity.
Qed.

(** A property kept by every allowed action holds along a schedule. *)
Lemma exec_invariant E b (I : pool -> Prop) (A : action -> Prop) :
  (forall p a, A a -> I p -> I (step E b p a)) ->
  forall sched p, Forall A sched -> I p -> I (exec E b sched p).
Proof.
  intros Hstep sched. induction sched as [|a sched IH]; intros p HA HI.
  - exact HI.
  - apply Forall_cons in HA as [Ha HA]. cbn. apply IH; auto.
Qed.





Lemma step_length E b p a :
  length (workers (step E b p a)) = length (workers p) /\
  cap (results (step E b p a)) = cap (results p).
Proof.
  destruct a as [k|t| |]; cbn.
  - destruct (workers p !! k) as [w|] eqn:Hk; [|auto].
    destruct (worker_step E b p w) as [[p' w']|] eqn:Hstep; [|auto].
    apply worker_step_inv in Hstep as (Hws & Hcap & _).
    cbn. rewrite length_insert, Hws. auto.
  - destruct (tickers p !! t); auto.
  - destruct (chan_send (stopCh p) true); auto.
  - unfold chan_recv. destruct (buf (results p)); auto.
Qed.

Lemma exec_length E b sched p :
  length (workers (exec E b sched p)) = length (workers p) /\
  cap (results (exec E b sched p)) = cap (results p).
Proof.
  apply (exec_invariant E b
           (fun q => length (workers q) = length (workers p) /\
                     cap (results q) = cap (results p))
           (fun _ => True)).
  - intros q a _ [H1 H2]. destruct (step_length E b q a) as [H3 H4].
    split; congruence.
  - apply Forall_true. auto.
  - auto.
Qed.

Lemma sum_list_const {A} (f : A -> nat) (l : list A) c :
  Forall (fun x => f x = c) l -> sum_list (map f l) = (length l * c)%nat.
Proof.
  induction 1 as [|x l Hx _ IH]; simpl; [reflexivity|]. rewrite Hx, IH. lia.
Qed.







(** *** Termination of the worker pool *)



Section Liveness.
Variables (E : Env) (b : Requester).
Hypothesis Hqps : QPS (config b) <= 1000000.
















End Liveness.


Lemma step_Wok E b n0 p a :
  Forall (Wok (QPS (config b) >? 0) n0) (workers p) ->
  Forall (Wok (QPS (config b) >? 0) n0) (workers (step E b p a)).
Proof.
  intros HW. destruct a as [k|t| |]; cbn.
  - destruct (workers p !! k) as [w|] eqn:Hk; [|assumption].
    destruct (worker_step E b p w) as [[p' w']|] eqn:Hstep; [|assumption].
    pose proof (worker_step_Wok _ _ _ _ _ _ n0
                  (proj1 (Forall_lookup _ _) HW k w Hk) Hstep) as Hw'.
    apply worker_step_inv in Hstep as (Hws & _). cbn. rewrite Hws.
    apply Forall_insert; assumption.
  - destruct (tickers p !! t); assumption.
  - destruct (chan_send (stopCh p) true); assumption.
  - destruct (chan_recv (results p)) as [[r ch]|]; assumption.
Qed.

Lemma exec_Wok E b sched res stop :
  Forall (Wok (QPS (config b) >? 0) (div (N (config b)) (C (config b))))
    (workers (exec E b sched (runWorkers_init b res stop))).
Proof.
  apply (exec_invariant E b
           (fun p => Forall (Wok (QPS (config b) >? 0)
                               (div (N (config b)) (C (config b))))
                       (workers p))
           (fun _ => True)).
  - intros p a _. apply step_Wok.
  - apply Forall_true. auto.
  - cbn. apply Forall_replicate.
    constructor; cbn; auto; try lia; try discriminate.
Qed.

(** *** The claims on the worker pool *)







Lemma Run_pool_value E b sched :
  0 <= C (config b) -> C (config b) * 1000 <= maxInt ->
  Run_pool E b sched
  = Some (exec E b sched
            (runWorkers_init b
               (mkChan (Z.to_nat (Z.min (C (config b) * 1000) 1000000)) [])
               (mkChan (Z.to_nat (C (config b))) []))).
Proof.
  intros H0 Hmax. unfold Run_pool.
  rewrite results_cap_value, make_stop by assumption. reflexivity.
Qed.

Lemma Run_value E b sched p :
  0 <= C (config b) -> C (config b) * 1000 <= maxInt ->
  (connect E b).2 = None ->
  Run_pool E b sched = Some p ->
  Run E b sched
  = if all_done p
    then RunReturn (Some (Finish p)) None
           [StConnect; StReporter; StWorkers; StFinish; StClose]
    else RunWaiting p.
Proof.
  intros H0 Hmax Hconn Hp. rewrite Run_pool_value in Hp by assumption.
  injection Hp as <-. unfold Run.
  rewrite results_cap_value, make_stop by assumption.
  destruct (connect E b) as [cc [e|]]; [discriminate|]. reflexivity.
Qed.



Lemma makeRequest_fails E b cnt :
  render_fails E b cnt -> makeRequest E b cnt = (wrap (cnt + 1), None).
Proof.
  unfold render_fails, makeRequest. cbn zeta.
  destruct (executeData E (wrap (cnt + 1)) (data b)) as [dataMap [e1|]];
    [reflexivity|].
  destruct (executeMetadata E (wrap (cnt + 1)) (metadata b)) as [mdMap [e2|]];
    [reflexivity|].
  cbn [fst snd].
  destruct (createPayloads E dataMap (mtd b)) as [[input streamInput] [e3|]];
    [reflexivity|].
  cbn. intros [H|[H|H]]; congruence.
Qed.

(** C5: when the payload template, the metadata template or the building
    of the payload fails, [makeRequest] returns with no operation on the
    stub.  The worker that made the call is back at its loop with [i] one
    higher; the result channel and what the reporter holds are as before,
    so no CallResult exists for the call.  A run can so end with a count
    below [N]. *)
Theorem makeRequest_dropped (E : Env) (b : Requester) (p : pool) (k : nat)
  (w : worker) :
  render_fails E b (reqCounter p) ->
  workers p !! k = Some w ->
  w_pc w = PCall ->
  makeRequest E b (reqCounter p) = (wrap (reqCounter p + 1), None) /\
  (let q := step E b p (AWorker k) in
   results q = results p /\ reported q = reported p /\
   total_issued q = total_issued p /\
   exists w', workers q !! k = Some w' /\ w_pc w' = PLoop /\
     w_i w' = w_i w + 1 /\
     w_log w' = EvRequest (wrap (reqCounter p + 1)) None :: w_log w) /\
  (exists sched r st,
     Run Samples.badTemplateEnv (Samples.requester 2 1 0) sched
     = RunReturn (Some r) None st /\
     Z.of_nat (count r) < N (config (Samples.requester 2 1 0))).
Proof.
  intros Hfail Hk Hpc.
  pose proof (makeRequest_fails E b _ Hfail) as Hreq.
  split; [exact Hreq|]. split.
  - assert (Hs : worker_step E b p w = Some
              (mkPool (stopCh p) (wrap (reqCounter p + 1)) (tickers p)
                 (results p) (reported p) (workers p),
               mkWorker PLoop (w_i w + 1) (w_n w) (w_throttle w)
                 (EvRequest (wrap (reqCounter p + 1)) None :: w_log w))).
    { unfold worker_step. rewrite Hpc, Hreq. reflexivity. }
    cbn zeta. rewrite (step_worker _ _ _ _ _ _ _ Hk Hs). cbn.
    split; [reflexivity|]. split; [reflexivity|]. split.
    + unfold total_issued. cbn.
      pose proof (sum_list_insert issued_calls (workers p) k w
                    (mkWorker PLoop (w_i w + 1) (w_n w) (w_throttle w)
                       (EvRequest (wrap (reqCounter p + 1)) None :: w_log w))
                    Hk) as Hsum.
      unfold issued_calls at 2 4 in Hsum. cbn in Hsum. lia.
    + eexists. split.
      * apply list_lookup_insert_eq. eapply lookup_lt_Some; eassumption.
      * cbn. auto.
  - exists (Samples.sched_worker 0 2). eexists _, _.
    split; vm_compute; reflexivity.
Qed.

Lemma makeRequest_dropped_witness :
  let b := Samples.requester 2 1 0 in
  let p := exec Samples.badTemplateEnv b
             [AWorker 0; AWorker 0] (Samples.pool1 b) in
  let q := step Samples.badTemplateEnv b p (AWorker 0) in
  makeRequest Samples.badTemplateEnv b (reqCounter p) = (1, None) /\
  results q = results p /\ reported q = reported p /\
  Run Samples.badTemplateEnv b (Samples.sched_worker 0 2)
  = RunReturn (Some (mkReport 0 [])) None
      [StConnect; StReporter; StWorkers; StFinish; StClose].
Proof.
  intros b p q.
  destruct (makeRequest_dropped Samples.badTemplateEnv b p 0%nat
              (mkWorker PCall 0 2 None [EvDefault; EvStart None]))
    as (H1 & (H2 & H3 & _) & _).
  - left. cbn. discriminate.
  - vm_compute. reflexivity.
  - reflexivity.
  - split; [exact H1|]. split; [exact H2|]. split; [exact H3|].
    vm_compute. reflexivity.
Defined.



(** *** A rate above one million *)

Lemma tickPeriod_zero qps : 1000000 < qps <= maxInt -> tickPeriod qps = 0.
Proof.
  intros H. unfold tickPeriod, div.
  rewrite Z.quot_small by lia. reflexivity.
Qed.

Lemma worker_step_parked E b p w p' w' n0 :
  1000000 < QPS (config b) <= maxInt -> 0 < n0 ->
  buf (stopCh p) = [] -> Parked n0 w ->
  worker_step E b p w = Some (p', w') ->
  buf (stopCh p') = [] /\ Parked n0 w'.
Proof.
  intros Hq Hn0 Hstop (Hth & Hi & Hn & Hpc) Hstep.
  assert (Hpos : (QPS (config b) >? 0) = true) by lia.
  unfold worker_step in Hstep. rewrite Hpos in Hstep.
  destruct Hpc as [Hpc|[Hpc|Hpc]]; rewrite Hpc in Hstep.
  - rewrite tickPeriod_zero in Hstep by assumption. cbn in Hstep.
    injection Hstep as <- <-. cbn. unfold Parked. cbn. auto 10.
  - unfold chan_recv in Hstep. rewrite Hstop, Hi, Hn in Hstep.
    destruct (0 <? n0) eqn:Hlt; [|lia].
    injection Hstep as <- <-. unfold Parked. cbn. auto 10.
  - rewrite Hth in Hstep. discriminate.
Qed.

(** With [QPS] above one million the period [1e6/QPS] is zero, [time.Tick]
    returns the nil channel, and every worker that has a call to make stays
    at its first wait: without [Stop] the workers never all return. *)
Lemma fast_qps_blocks E b sched res stop :
  1000000 < QPS (config b) <= maxInt ->
  1 <= C (config b) ->
  0 < div (N (config b)) (C (config b)) ->
  Forall nonstop sched -> buf stop = [] ->
  all_done (exec E b sched (runWorkers_init b res stop)) = false.
Proof.
  intros Hq HC Hn0 Hsched Hstop.
  set (n0 := div (N (config b)) (C (config b))) in *.
  pose (I := fun p : pool =>
              buf (stopCh p) = [] /\ workers p <> [] /\
              Forall (Parked n0) (workers p)).
  assert (HI : I (exec E b sched (runWorkers_init b res stop))).
  { apply (exec_invariant E b I nonstop); [|assumption|].
    - intros p a Ha (Hs & Hne & HP). unfold I.
      destruct a as [k|t| |]; cbn.
      + destruct (workers p !! k) as [w|] eqn:Hk; [|auto].
        destruct (worker_step E b p w) as [[p' w']|] eqn:Hstep; [|auto].
        destruct (worker_step_parked E b p w p' w' n0 Hq Hn0 Hs
                    (proj1 (Forall_lookup _ _) HP k w Hk) Hstep) as [Hs' Hw'].
        apply worker_step_inv in Hstep as (Hws & _). cbn. rewrite Hws.
        split; [assumption|]. split.
        * intros Heq. apply (f_equal length) in Heq.
          rewrite length_insert in Heq. destruct (workers p); [congruence|].
          discriminate.
        * apply Forall_insert; assumption.
      + destruct (tickers p !! t); auto.
      + now destruct Ha.
      + destruct (chan_recv (results p)) as [[r ch]|]; auto.
    - unfold I. cbn. split; [assumption|]. split.
      + destruct (Z.to_nat (C (config b))) eqn:Hc; [lia|discriminate].
      + apply Forall_replicate. unfold Parked. cbn. auto 10. }
  destruct HI as (_ & Hne & HP).
  unfold all_done.
  destruct (workers (exec E b sched (runWorkers_init b res stop)))
    as [|w ws]; [congruence|].
  apply Forall_cons in HP as [(_ & _ & _ & Hpc) _]. cbn.
  unfold is_done. destruct Hpc as [->|[->| ->]]; reflexivity.
Qed.

End GhzProofs.

(** ** More properties of package config *)

Module ConfigExtra.
Import Config ConfigFiles ConfigProofs.

Lemma requiredString_nil L s :
  requiredString L s = None <-> strings_TrimSpace L s <> ""%string.
Proof.
  unfold requiredString.
  destruct (String.eqb_spec (strings_TrimSpace L s) ""); split;
    congruence.
Qed.

Lemma requiredString_msg L s e :
  requiredString L s = Some e -> e = "is required"%string.
Proof.
  unfold requiredString. destruct (String.eqb _ _); congruence.
Qed.

Lemma minValue_0 v : minValue v 0 = None <-> 0 <= v.
Proof.
  unfold minValue. destruct (Z.ltb_spec v 0); split; try congruence; lia.
Qed.

Lemma minValue_0_msg v e :
  minValue v 0 = Some e -> e = "must be at least 0"%string.
Proof.
  unfold minValue. destruct (v <? 0); [|discriminate].
  intros H. injection H as <-. reflexivity.
Qed.

(** The checks of [Validate], taken together. *)
Lemma Validate_nil_iff (L : Lib) (c : Config) :
  Validate L c = None <-> Accepted L c.
Proof.
  unfold Accepted. split.
  - intros HV. pose proof (Validate_nil L c HV) as (HN & HC & HQ & HT & HU).
    unfold Validate in HV.
    destruct (requiredString L (Proto c)) eqn:HP; [discriminate|].
    apply requiredString_nil in HP.
    destruct (String.eqb_spec (filepath_Ext L (Proto c)) ".proto") as [HE|HE];
      cbn [negb] in HV; [|discriminate].
    destruct (requiredString L (Call c)) eqn:HCl; [discriminate|].
    apply requiredString_nil in HCl.
    destruct (minValue (N c) 0); [discriminate|].
    destruct (minValue (C c) 0); [discriminate|].
    destruct (minValue (QPS c) 0); [discriminate|].
    destruct (minValue (Timeout c) 0); [discriminate|].
    destruct (minValue (CPUs c) 0); [discriminate|].
    repeat (split; [assumption|]).
    intros Hblank. rewrite Hblank in HV. cbn in HV.
    destruct (Data c); [discriminate|discriminate].
  - intros (HP & HE & HCl & HN & HC & HQ & HT & HU & HD).
    unfold Validate.
    rewrite (proj2 (requiredString_nil L _) HP), HE.
    change (negb (String.eqb ".proto" ".proto")) with false. cbn iota.
    rewrite (proj2 (requiredString_nil L _) HCl).
    rewrite !(proj2 (minValue_0 _)) by assumption.
    destruct (String.eqb_spec (strings_TrimSpace L (DataPath c)) "")
      as [Hb|Hb]; [|reflexivity].
    specialize (HD Hb). destruct (Data c); [reflexivity|congruence].
Qed.

(** The messages of [Validate]. *)
Lemma Validate_Some_In (L : Lib) (c : Config) (msg : string) :
  Validate L c = Some msg -> In msg Validate_messages.
Proof.
  unfold Validate, Validate_messages.
  destruct (requiredString L (Proto c)) as [e|] eqn:HP.
  { apply requiredString_msg in HP as ->. intros H. injection H as <-.
    cbn. tauto. }
  destruct (negb _).
  { intros H. injection H as <-. cbn. tauto. }
  destruct (requiredString L (Call c)) as [e|] eqn:HCl.
  { apply requiredString_msg in HCl as ->. intros H. injection H as <-.
    cbn. tauto. }
  destruct (minValue (N c) 0) as [e|] eqn:H1.
  { apply minValue_0_msg in H1 as ->. intros H. injection H as <-.
    cbn. tauto. }
  destruct (minValue (C c) 0) as [e|] eqn:H2.
  { apply minValue_0_msg in H2 as ->. intros H. injection H as <-.
    cbn. tauto. }
  destruct (minValue (QPS c) 0) as [e|] eqn:H3.
  { apply minValue_0_msg in H3 as ->. intros H. injection H as <-.
    cbn. tauto. }
  destruct (minValue (Timeout c) 0) as [e|] eqn:H4.
  { apply minValue_0_msg in H4 as ->. intros H. injection H as <-.
    cbn. tauto. }
  destruct (minValue (CPUs c) 0) as [e|] eqn:H5.
  { apply minValue_0_msg in H5 as ->. intros H. injection H as <-.
    cbn. tauto. }
  destruct (String.eqb _ _); [|discriminate].
  destruct (Data c); [discriminate|].
  intros H. injection H as <-. cbn. tauto.
Qed.

(** X1: [Validate] returns nil exactly for the configurations that have a
    non-blank proto with the extension [.proto], a non-blank call,
    non-negative [n], [c], [qps], [timeout] and [cpus], and inline data
    whenever the data path is blank. *)
Theorem Validate_accepts_iff (L : Lib) (c : Config) :
  Validate L c = None <-> Accepted L c.
Proof.
  exact (Validate_nil_iff L c).
Qed.

Lemma Validate_accepts_iff_witness :
  Accepted Samples.sampleLib MoreSamples.config_with_path.
Proof.
  apply (proj1 (Validate_accepts_iff Samples.sampleLib
                  MoreSamples.config_with_path)).
  vm_compute. reflexivity.
Defined.

(** X2: an error of [Validate] is one of nine fixed messages, each led by
    the name of the field at fault. *)
Theorem Validate_message_known (L : Lib) (c : Config) (msg : string) :
  Validate L c = Some msg -> In msg Validate_messages.
Proof.
  exact (Validate_Some_In L c msg).
Qed.

Lemma Validate_message_known_witness :
  Validate Samples.sampleLib (set_C (-1) MoreSamples.config_with_path)
    = Some "c: must be at least 0"%string /\
  In "c: must be at least 0"%string Validate_messages.
Proof.
  split; [vm_compute; reflexivity|].
  apply (Validate_message_known Samples.sampleLib
           (set_C (-1) MoreSamples.config_with_path)).
  vm_compute. reflexivity.
Defined.


(** X4: a configuration [parseConfig] returns passes every check of
    [Validate], and its [n] is at least 1: a total of zero calls cannot be
    asked for, since a zero [n] is replaced by 200.  Its [cpus] is at least
    1 as well when [GOMAXPROCS] is. *)
Theorem parseConfig_returns (L : Lib) (b : string) (c : Config) :
  parseConfig L b = (Some c, None) ->
  Accepted L c /\ 1 <= N c /\
  (1 <= runtime_GOMAXPROCS L (-1) -> 1 <= CPUs c).
Proof.
  intros Hc. apply parseConfig_ok in Hc as (d & _ & -> & HV).
  pose proof (proj1 (Validate_nil_iff L _) HV) as HA.
  split; [exact HA|].
  destruct HA as (_ & _ & _ & HN & _ & _ & _ & HU & _).
  rewrite Default_N in *. split.
  - destruct (N d =? 0) eqn:E; [lia|]. apply Z.eqb_neq in E. lia.
  - intros Hg. destruct (Z.eq_dec (CPUs d) 0) as [E|E].
    + assert (CPUs (Default L d) = runtime_GOMAXPROCS L (-1)).
      { unfold Default. apply Z.eqb_eq in E.
        destruct (N d =? 0); cbn; destruct (C d =? 0); cbn; rewrite E;
          reflexivity. }
      lia.
    + rewrite Default_CPUs in * by assumption. lia.
Qed.

Lemma parseConfig_returns_witness :
  exists c,
    parseConfig Samples.sampleLib Samples.doc_defaults = (Some c, None) /\
    Accepted Samples.sampleLib c /\ 1 <= N c /\ 1 <= CPUs c.
Proof.
  assert (H : exists c, parseConfig Samples.sampleLib Samples.doc_defaults
                        = (Some c, None))
    by (eexists; vm_compute; reflexivity).
  destruct H as [c Hc]. exists c. split; [exact Hc|].
  destruct (parseConfig_returns Samples.sampleLib Samples.doc_defaults c Hc)
    as (HA & HN & HU).
  split; [exact HA|]. split; [exact HN|]. apply HU. vm_compute. discriminate.
Defined.

(** X5: [Default] is idempotent, and it changes nothing in a configuration
    whose [n], [c] and [cpus] are all non-zero. *)
Theorem Default_idempotent (L : Lib) (c : Config) :
  Default L (Default L c) = Default L c /\
  (N c <> 0 -> C c <> 0 -> CPUs c <> 0 -> Default L c = c).
Proof.
  split.
  - unfold Default.
    destruct (N c =? 0) eqn:EN, (C c =? 0) eqn:EC, (CPUs c =? 0) eqn:EU;
      destruct (runtime_GOMAXPROCS L (-1) =? 0) eqn:EG;
      repeat first [ progress cbn | rewrite EN | rewrite EC | rewrite EU
                   | rewrite EG ];
      reflexivity.
  - intros HN HC HU. apply Z.eqb_neq in HN, HC, HU. unfold Default.
    rewrite HN, HC, HU. reflexivity.
Qed.

Lemma Default_idempotent_witness :
  Default Samples.sampleLib MoreSamples.config_with_path
  = MoreSamples.config_with_path.
Proof.
  apply (proj2 (Default_idempotent Samples.sampleLib
                  MoreSamples.config_with_path));
    vm_compute; discriminate.
Defined.

(** X6: a configuration that [Validate] accepts always has a source of
    data.  [InitData] keeps inline data as it is, without reading any file;
    without inline data it reads the data path, and it never ends in
    "No data specified". *)
Theorem InitData_validated (L : Lib) (F : Files) (c : Config) :
  Validate L c = None ->
  InitData L F c
  = match Data c with
    | Some _ => (c, None)
    | None => loadData F c
    end.
Proof.
  intros HV. apply Validate_nil_iff in HV.
  destruct HV as (_ & _ & _ & _ & _ & _ & _ & _ & HD).
  unfold InitData. destruct (Data c) eqn:Hdata; [reflexivity|].
  destruct (String.eqb_spec (strings_TrimSpace L (DataPath c)) "") as [Hb|Hb];
    [|reflexivity].
  exfalso. apply (HD Hb). reflexivity.
Qed.

Lemma InitData_validated_witness :
  InitData Samples.sampleLib MoreSamples.sampleFiles
    MoreSamples.config_with_path
  = (set_Data (Some []) MoreSamples.config_with_path, None).
Proof.
  rewrite (InitData_validated Samples.sampleLib MoreSamples.sampleFiles
             MoreSamples.config_with_path);
    [reflexivity|vm_compute; reflexivity].
Defined.

(** X7: metadata is optional where data is not.  Without a metadata path
    [InitMetadata] returns nil and leaves the configuration as it is; inline
    metadata with at least one entry is kept and the path is not read; but an
    inline map without entries counts as absent and is replaced by what the
    file at the path holds. *)
Theorem InitMetadata_optional (L : Lib) (F : Files) (c : Config) :
  (strings_TrimSpace L (MetadataPath c) = ""%string ->
   InitMetadata L F c = (c, None)) /\
  (forall kv rest, Metadata c = Some (kv :: rest) ->
   InitMetadata L F c = (c, None)) /\
  (strings_TrimSpace L (MetadataPath c) <> ""%string ->
   Metadata c = None \/ Metadata c = Some [] ->
   InitMetadata L F c = loadMetadata F c).
Proof.
  unfold InitMetadata. split; [|split].
  - intros Hb. rewrite Hb. cbn. destruct (Metadata c) as [[|kv rest]|];
      reflexivity.
  - intros kv rest ->. reflexivity.
  - intros Hb Hm.
    destruct (String.eqb_spec (strings_TrimSpace L (MetadataPath c)) "");
      [contradiction|].
    destruct Hm as [-> | ->]; reflexivity.
Qed.

Lemma InitMetadata_optional_witness :
  InitMetadata Samples.sampleLib MoreSamples.sampleFiles
    MoreSamples.config_with_path
  = (MoreSamples.config_with_path, None) /\
  InitMetadata Samples.sampleLib MoreSamples.sampleFiles
    MoreSamples.config_empty_metadata
  = (MoreSamples.config_empty_metadata,
     Some "open missing.json: no such file or directory"%string).
Proof.
  split.
  - apply (proj1 (InitMetadata_optional Samples.sampleLib
                    MoreSamples.sampleFiles MoreSamples.config_with_path)).
    reflexivity.
  - rewrite (proj2 (proj2 (InitMetadata_optional Samples.sampleLib
                             MoreSamples.sampleFiles
                             MoreSamples.config_empty_metadata)));
      [reflexivity|vm_compute; discriminate|right; reflexivity].
Defined.

End ConfigExtra.

(** ** Properties of package printer *)

Module PrinterProofs.
Import Printer.

Lemma fold_max_ge {F} (buckets : list (Bucket F)) (m : Z) :
  m <= fold_left (fun max b => if Count b >? max then Count b else max)
         buckets m /\
  Forall (fun b =>
            Count b <= fold_left (fun max b => if Count b >? max
                                               then Count b else max)
                         buckets m) buckets.
Proof.
  revert m. induction buckets as [|b rest IH]; intros m; cbn.
  - split; [lia|constructor].
  - destruct (IH (if Count b >? m then Count b else m)) as [H1 H2].
    destruct (Z.gtb_spec (Count b) m); (split; [lia|]);
      constructor; try assumption; lia.
Qed.

Lemma fold_max_attained {F} (buckets : list (Bucket F)) (m : Z) :
  let r := fold_left (fun max b => if Count b >? max then Count b else max)
             buckets m in
  r = m \/ exists b, In b buckets /\ Count b = r.
Proof.
  revert m. induction buckets as [|b rest IH]; intros m; cbn.
  - left. reflexivity.
  - destruct (IH (if Count b >? m then Count b else m)) as [H|(b' & Hin & H)].
    + destruct (Count b >? m) eqn:E; [right; exists b; auto|left; exact H].
    + right. exists b'. auto.
Qed.

Lemma maxCount_ge {F} (buckets : list (Bucket F)) :
  0 <= maxCount buckets /\
  Forall (fun b => Count b <= maxCount buckets) buckets.
Proof. apply fold_max_ge. Qed.

(** The bar length without wrap-around. *)
Lemma barLen_value max count :
  0 < max -> 0 <= count <= max -> max * 41 <= Ghz.maxInt ->
  barLen max count = (count * 40 + max / 2) / max.
Proof.
  intros Hmax Hc Hbig. unfold barLen, add, Ghz.mul, Ghz.div.
  assert (Hgt : (max >? 0) = true) by lia. rewrite Hgt.
  assert (H2 : 0 <= max / 2 < max).
  { split; [apply Z.div_pos; lia|]. apply Z.div_lt_upper_bound; lia. }
  unfold Ghz.maxInt in *.
  rewrite (GhzProofs.wrap_small (count * 40))
    by (unfold Ghz.maxInt; nia).
  rewrite (Z.quot_div_nonneg max 2) by lia.
  rewrite (GhzProofs.wrap_small (max / 2)) by (unfold Ghz.maxInt; lia).
  rewrite (GhzProofs.wrap_small (count * 40 + max / 2))
    by (unfold Ghz.maxInt; nia).
  rewrite Z.quot_div_nonneg by nia.
  apply GhzProofs.wrap_small. unfold Ghz.maxInt.
  assert (0 <= (count * 40 + max / 2) / max) by (apply Z.div_pos; nia).
  assert ((count * 40 + max / 2) / max < 41)
    by (apply Z.div_lt_upper_bound; nia).
  lia.
Qed.

(** The length of a bar as a rounded quotient. *)
Lemma barLen_nearest (max c1 c2 : Z) :
  0 < max -> 0 <= c1 <= c2 -> c2 <= max -> max * 41 <= Ghz.maxInt ->
  barLen max c1 * max <= 40 * c1 + max / 2 < (barLen max c1 + 1) * max /\
  0 <= barLen max c1 <= barLen max c2 /\ barLen max c2 <= 40 /\
  barLen max max = 40.
Proof.
  intros Hmax H1 H2 Hbig.
  rewrite !barLen_value by lia.
  assert (Hh : 0 <= max / 2 < max).
  { split; [apply Z.div_pos; lia|]. apply Z.div_lt_upper_bound; lia. }
  pose proof (Z.div_mod (c1 * 40 + max / 2) max ltac:(lia)) as Hdm.
  pose proof (Z.mod_pos_bound (c1 * 40 + max / 2) max Hmax) as Hmod.
  split; [nia|]. split; [split|split].
  - apply Z.div_pos; nia.
  - apply Z.div_le_mono; nia.
  - assert ((c2 * 40 + max / 2) / max < 41)
      by (apply Z.div_lt_upper_bound; nia).
    lia.
  - assert (Hlt : max / 2 < max) by nia.
    replace (max * 40 + max / 2) with (max / 2 + 40 * max) by lia.
    rewrite Z.div_add by lia. rewrite Z.div_small by lia. reflexivity.
Qed.

(** X8: with a positive maximum, the bar of a bucket is 40 times its share
    of the maximum, rounded to the nearest whole number (halves go up); a
    larger count never gets a shorter bar. *)
Theorem barLen_rounds (max c1 c2 : Z) :
  0 < max -> 0 <= c1 <= c2 -> c2 <= max -> max * 41 <= Ghz.maxInt ->
  barLen max c1 * max <= 40 * c1 + max / 2 < (barLen max c1 + 1) * max /\
  0 <= barLen max c1 <= barLen max c2 /\ barLen max c2 <= 40 /\
  barLen max max = 40.
Proof.
  exact (barLen_nearest max c1 c2).
Qed.

Lemma barLen_rounds_witness :
  barLen 7 3 * 7 <= 40 * 3 + 7 / 2 < (barLen 7 3 + 1) * 7 /\
  0 <= barLen 7 3 <= barLen 7 5 /\ barLen 7 5 <= 40 /\ barLen 7 7 = 40.
Proof.
  apply barLen_rounds; [lia|lia|lia|vm_compute; discriminate].
Defined.

Lemma Repeat_bar l :
  0 <= l <= 40 ->
  Repeat barChar l
  = Some (String.concat "" (replicate (Z.to_nat l) barChar)).
Proof.
  intros Hl. unfold Repeat.
  destruct (Z.ltb_spec l 0); [lia|].
  destruct (Z.gtb_spec (Z.of_nat (String.length barChar) * l) Ghz.maxInt)
    as [Hgt|]; [|reflexivity].
  exfalso. revert Hgt. change (Z.of_nat (String.length barChar)) with 3.
  unfold Ghz.maxInt. lia.
Qed.

(** The lines for a list of buckets whose counts lie between 0 and a
    positive [max]. *)
Lemma histogram_lines_ok {F} (Sprintf : F -> Z -> string -> string) max
  (buckets : list (Bucket F)) :
  0 < max -> max * 41 <= Ghz.maxInt ->
  Forall (fun b => 0 <= Count b <= max) buckets ->
  histogram_lines Sprintf max buckets
  = Some (map (fun b =>
                 Sprintf (Mark b) (Count b)
                   (String.concat ""
                      (replicate (Z.to_nat (barLen max (Count b))) barChar)))
            buckets).
Proof.
  intros Hmax Hbig. induction 1 as [|b rest Hb _ IH]; [reflexivity|].
  cbn [histogram_lines map].
  pose proof (barLen_nearest max (Count b) (Count b) Hmax ltac:(lia) ltac:(lia)
                Hbig) as (_ & H0 & H40 & _).
  rewrite Repeat_bar by lia. rewrite IH. reflexivity.
Qed.

(** X9: when every count is at least 0 (and 41 times the count is an
    [int]), [histogram] does not panic and writes one line per bucket, in
    order; the bar of a line is the block character repeated between 0 and
    40 times, and 40 times exactly for a bucket that holds the largest
    count when that count is positive. *)
Theorem histogram_bars {F : Type} (Sprintf : F -> Z -> string -> string)
  (buckets : list (Bucket F)) :
  Forall (fun b => 0 <= Count b /\ Count b * 41 <= Ghz.maxInt) buckets ->
  histogram_lines Sprintf (maxCount buckets) buckets
  = Some (map (fun b =>
                 Sprintf (Mark b) (Count b)
                   (String.concat ""
                      (replicate
                         (Z.to_nat (barLen (maxCount buckets) (Count b)))
                         barChar)))
            buckets) /\
  Forall (fun l => 0 <= l <= 40) (bars buckets) /\
  (forall b, In b buckets -> 0 < Count b -> Count b = maxCount buckets ->
     barLen (maxCount buckets) (Count b) = 40).
Proof.
  intros Hall.
  destruct (maxCount_ge buckets) as [H0 Hle].
  destruct (Z.eq_dec (maxCount buckets) 0) as [Hz|Hnz].
  - (* no positive count: every bar is empty *)
    rewrite Hz in *. split; [|split].
    + clear Hz H0. induction buckets as [|b rest IH]; [reflexivity|].
      apply Forall_cons in Hall as [_ Hall]. apply Forall_cons in Hle as [_ Hle].
      cbn. rewrite (IH Hall Hle). reflexivity.
    + unfold bars. apply Forall_map. apply Forall_true. intros b.
      rewrite Hz. cbn. lia.
    + intros b _ Hpos Heq. lia.
  - assert (Hmax : 0 < maxCount buckets) by lia.
    assert (Hbig : maxCount buckets * 41 <= Ghz.maxInt).
    { destruct (fold_max_attained buckets 0) as [H|(b & Hin & H)].
      - fold (maxCount buckets) in H. lia.
      - fold (maxCount buckets) in H. rewrite <- H.
        apply list_elem_of_In in Hin.
        apply (proj1 (Forall_forall _ _) Hall b Hin). }
    assert (Hrange : Forall (fun b => 0 <= Count b <= maxCount buckets)
                       buckets).
    { apply Forall_forall. intros b Hin.
      pose proof (proj1 (Forall_forall _ _) Hall b Hin).
      pose proof (proj1 (Forall_forall _ _) Hle b Hin). cbn in *. lia. }
    split; [|split].
    + apply histogram_lines_ok; assumption.
    + unfold bars. apply Forall_map. eapply Forall_impl; [exact Hrange|].
      cbn. intros b Hb.
      pose proof (barLen_nearest (maxCount buckets) (Count b) (Count b) Hmax
                    ltac:(lia) ltac:(lia) Hbig). lia.
    + intros b _ _ ->.
      apply (barLen_nearest (maxCount buckets) 0 0 Hmax); lia.
Qed.

Lemma histogram_bars_witness :
  bars [mkBucket tt 3; mkBucket tt 7; mkBucket tt 0] = [17; 40; 0] /\
  Forall (fun l => 0 <= l <= 40)
    (bars [mkBucket tt 3; mkBucket tt 7; mkBucket tt 0]).
Proof.
  split; [vm_compute; reflexivity|].
  apply (histogram_bars (fun _ _ bar => bar)
           [mkBucket tt 3; mkBucket tt 7; mkBucket tt 0]).
  repeat constructor; cbn; try lia; vm_compute; discriminate.
Defined.

(** X10: when no count is positive, the maximum stays 0 and every bar is
    empty: negative counts do not make [histogram] panic. *)
Theorem histogram_no_positive {F : Type}
  (Sprintf : F -> Z -> string -> string) (buckets : list (Bucket F)) :
  Forall (fun b => Count b <= 0) buckets ->
  maxCount buckets = 0 /\
  histogram Sprintf buckets
  = Some (String.concat ""
            (map (fun b => Sprintf (Mark b) (Count b) ""%string) buckets)).
Proof.
  intros Hall.
  assert (Hz : maxCount buckets = 0).
  { unfold maxCount. induction Hall as [|b rest Hb _ IH]; [reflexivity|].
    cbn. destruct (Z.gtb_spec (Count b) 0); [lia|exact IH]. }
  split; [exact Hz|]. unfold histogram. rewrite Hz.
  assert (Hlines : histogram_lines Sprintf 0 buckets
                   = Some (map (fun b => Sprintf (Mark b) (Count b) ""%string)
                             buckets)).
  { clear Hz Hall. induction buckets as [|b rest IH]; [reflexivity|].
    cbn [histogram_lines map]. change (barLen 0 (Count b)) with 0.
    change (Repeat barChar 0) with (Some ""%string).
    rewrite IH. reflexivity. }
  rewrite Hlines. reflexivity.
Qed.

Lemma histogram_no_positive_witness :
  histogram (fun (_ : unit) (_ : Z) (bar : string) => ("|" ++ bar ++ ";")%string)
    [mkBucket tt 0; mkBucket tt (-2)]
  = Some "|;|;"%string.
Proof.
  destruct (histogram_no_positive
              (fun (_ : unit) (_ : Z) (bar : string) => ("|" ++ bar ++ ";")%string)
              [mkBucket tt 0; mkBucket tt (-2)]) as [_ H].
  - repeat constructor; cbn; lia.
  - rewrite H. reflexivity.
Defined.

End PrinterProofs.

(** ** More properties of package ghz *)

Module GhzExtra.
Import Ghz GhzMore GhzProofs.

(** *** The streaming helpers *)

Lemma clientSendLoop_ok s rest counter :
  (forall j, (j < length rest)%nat -> send_err s (counter + j) = None) ->
  clientSendLoop s rest counter
  = {| ops := map OpSendMsg rest ++ [OpCloseAndReceive]; last_err := None |}.
Proof.
  revert counter. induction rest as [|m rest IH]; intros counter Hok;
    [reflexivity|].
  cbn [clientSendLoop].
  pose proof (Hok 0%nat ltac:(cbn; lia)) as H0.
  rewrite Nat.add_0_r in H0. rewrite H0, IH; [reflexivity|].
  intros j Hj. replace (S counter + j)%nat with (counter + S j)%nat by lia.
  apply Hok. cbn. lia.
Qed.

Lemma clientSendLoop_fails s rest counter k e :
  (k < length rest)%nat ->
  (forall j, (j < k)%nat -> send_err s (counter + j) = None) ->
  send_err s (counter + k) = Some e ->
  clientSendLoop s rest counter
  = {| ops := map OpSendMsg (take (S k) rest)
              ++ match e with
                 | EOF => [OpCloseAndReceive]
                 | StatusError _ _ => []
                 end;
       last_err := Some e |}.
Proof.
  revert counter k. induction rest as [|m rest IH]; intros counter k Hk Hok He.
  - cbn in Hk. lia.
  - cbn [clientSendLoop]. destruct k as [|k].
    + rewrite Nat.add_0_r in He. rewrite He. destruct e; reflexivity.
    + pose proof (Hok 0%nat ltac:(lia)) as H0.
      rewrite Nat.add_0_r in H0. rewrite H0.
      rewrite (IH (S counter) k).
      * reflexivity.
      * cbn in Hk. lia.
      * intros j Hj.
        replace (S counter + j)%nat with (counter + S j)%nat by lia.
        apply Hok. lia.
      * replace (S counter + k)%nat with (counter + S k)%nat by lia.
        exact He.
Qed.

(** X11: a client-streaming call whose sends all succeed sends every
    message once, in the order of the input, and then closes and receives;
    with no message it closes and receives at once. *)
Theorem makeClientStreamingRequest_sends_all (s : stream) (ctx : context)
  (input : list Message) :
  invoke_err s = None ->
  (forall j, (j < length input)%nat -> send_err s j = None) ->
  makeClientStreamingRequest s ctx input
  = {| ops := OpInvokeRpcClientStream ctx
              :: map OpSendMsg input ++ [OpCloseAndReceive];
       last_err := None |}.
Proof.
  intros Hinv Hok. unfold makeClientStreamingRequest. rewrite Hinv.
  rewrite clientSendLoop_ok by exact Hok. reflexivity.
Qed.

Lemma makeClientStreamingRequest_sends_all_witness :
  ops (makeClientStreamingRequest Samples.okStream Samples.ctx0
         [JNull; JBool true; JNull])
  = [OpInvokeRpcClientStream Samples.ctx0; OpSendMsg JNull;
     OpSendMsg (JBool true); OpSendMsg JNull; OpCloseAndReceive].
Proof.
  rewrite (makeClientStreamingRequest_sends_all Samples.okStream Samples.ctx0
             [JNull; JBool true; JNull]);
    [reflexivity|reflexivity|intros j Hj; reflexivity].
Defined.

(** X12: when the send of message [k] is the first to fail, a
    client-streaming call has sent messages 0 to [k] and sends no more.  If
    the error is [io.EOF] it then closes and receives; after any other error
    it returns at once, without [CloseAndReceive]. *)
Theorem makeClientStreamingRequest_send_error (s : stream) (ctx : context)
  (input : list Message) (k : nat) (e : rpc_error) :
  invoke_err s = None ->
  (k < length input)%nat ->
  (forall j, (j < k)%nat -> send_err s j = None) ->
  send_err s k = Some e ->
  makeClientStreamingRequest s ctx input
  = {| ops := OpInvokeRpcClientStream ctx
              :: map OpSendMsg (take (S k) input)
              ++ match e with
                 | EOF => [OpCloseAndReceive]
                 | StatusError _ _ => []
                 end;
       last_err := Some e |}.
Proof.
  intros Hinv Hk Hok He. unfold makeClientStreamingRequest. rewrite Hinv.
  rewrite (clientSendLoop_fails s input 0 k e Hk Hok He). reflexivity.
Qed.

Lemma makeClientStreamingRequest_send_error_witness :
  ops (makeClientStreamingRequest
         (mkStream None
            (fun j => if (j =? 1)%nat
                      then Some (StatusError "Internal" "reset") else None)
            [] EOF)
         Samples.ctx0 [JNull; JBool true; JNull])
  = [OpInvokeRpcClientStream Samples.ctx0; OpSendMsg JNull;
     OpSendMsg (JBool true)].
Proof.
  rewrite (makeClientStreamingRequest_send_error _ Samples.ctx0
             [JNull; JBool true; JNull] 1 (StatusError "Internal" "reset")).
  - reflexivity.
  - reflexivity.
  - cbn. lia.
  - intros j Hj. assert (j = 0%nat) as -> by lia. reflexivity.
  - reflexivity.
Defined.

Lemma bidiSendLoop_ok s rest counter :
  (forall j, (j < length rest)%nat -> send_err s (counter + j) = None) ->
  bidiSendLoop s rest counter = (map OpSendMsg rest ++ [OpCloseSend], None).
Proof.
  revert counter. induction rest as [|m rest IH]; intros counter Hok;
    [reflexivity|].
  cbn [bidiSendLoop].
  pose proof (Hok 0%nat ltac:(cbn; lia)) as H0.
  rewrite Nat.add_0_r in H0. rewrite H0, IH; [reflexivity|].
  intros j Hj. replace (S counter + j)%nat with (counter + S j)%nat by lia.
  apply Hok. cbn. lia.
Qed.

(** X13: a bidirectional call whose sends all succeed sends every message
    in order, half-closes with [CloseSend], and only then receives: once for
    each message of the peer and once more for the error that ends the
    stream, of which [io.EOF] is taken as no error. *)
Theorem makeBidiRequest_sends_then_drains (s : stream) (ctx : context)
  (input : list Message) :
  invoke_err s = None ->
  (forall j, (j < length input)%nat -> send_err s j = None) ->
  makeBidiRequest s ctx input
  = {| ops := OpInvokeRpcBidiStream ctx
              :: map OpSendMsg input ++ [OpCloseSend]
              ++ replicate (S (length (recv_msgs s))) OpRecvMsg;
       last_err := match recv_end s with
                   | EOF => None
                   | StatusError code msg => Some (StatusError code msg)
                   end |}.
Proof.
  intros Hinv Hok. unfold makeBidiRequest. rewrite Hinv.
  rewrite bidiSendLoop_ok by exact Hok. rewrite recvLoop_replicate.
  rewrite <- app_assoc. unfold afterRecv. destruct (recv_end s); reflexivity.
Qed.

Lemma makeBidiRequest_sends_then_drains_witness :
  ops (makeBidiRequest Samples.okStream Samples.ctx0 [JNull; JBool true])
  = [OpInvokeRpcBidiStream Samples.ctx0; OpSendMsg JNull;
     OpSendMsg (JBool true); OpCloseSend; OpRecvMsg; OpRecvMsg].
Proof.
  rewrite (makeBidiRequest_sends_then_drains Samples.okStream Samples.ctx0
             [JNull; JBool true]);
    [reflexivity|reflexivity|intros j Hj; reflexivity].
Defined.

(** *** One invocation for each issued call *)

Lemma clientSendLoop_no_invoke s rest counter :
  Forall (fun o => is_invoke o = false) (ops (clientSendLoop s rest counter)).
Proof.
  revert counter. induction rest as [|m rest IH]; intros counter; cbn.
  - repeat constructor.
  - destruct (send_err s counter) as [[|code msg]|]; cbn;
      repeat constructor. apply IH.
Qed.

Lemma bidiSendLoop_no_invoke s rest counter :
  Forall (fun o => is_invoke o = false) (bidiSendLoop s rest counter).1.
Proof.
  revert counter. induction rest as [|m rest IH]; intros counter; cbn.
  - repeat constructor.
  - destruct (send_err s counter); cbn; [repeat constructor|].
    specialize (IH (S counter)).
    destruct (bidiSendLoop s rest (S counter)) as [l e]. cbn in *.
    constructor; [reflexivity|exact IH].
Qed.

Lemma recvLoop_no_invoke msgs :
  Forall (fun o => is_invoke o = false) (recvLoop msgs).
Proof. induction msgs; cbn; repeat constructor; assumption. Qed.

(** X14: a call that [makeRequest] issues opens exactly one RPC.  The first
    operation is the invocation that fits the streaming kind of the method,
    with the call timeout of the options in its context; no later operation
    invokes anything; and the call number is the counter plus one. *)
Theorem makeRequest_one_invocation (E : Env) (b : Requester) (cnt : Z)
  (n : Z) (l : list op) :
  makeRequest E b cnt = (n, Some l) ->
  n = wrap (cnt + 1) /\
  exists o rest md,
    l = o :: rest /\
    Forall (fun o' => is_invoke o' = false) rest /\
    invoke_ctx o = Some {| ctx_timeout := wrap (Timeout (config b) * Second);
                           ctx_md := md |} /\
    match o with
    | OpInvokeRpc _ _ =>
        IsClientStreaming (mtd b) = false /\ IsServerStreaming (mtd b) = false
    | OpInvokeRpcClientStream _ =>
        IsClientStreaming (mtd b) = true /\ IsServerStreaming (mtd b) = false
    | OpInvokeRpcServerStream _ _ =>
        IsClientStreaming (mtd b) = false /\ IsServerStreaming (mtd b) = true
    | OpInvokeRpcBidiStream _ =>
        IsClientStreaming (mtd b) = true /\ IsServerStreaming (mtd b) = true
    | _ => False
    end.
Proof.
  unfold makeRequest. cbn zeta.
  destruct (executeData E (wrap (cnt + 1)) (data b)) as [dataMap [e1|]];
    [discriminate|].
  destruct (executeMetadata E (wrap (cnt + 1)) (metadata b)) as [mdMap [e2|]];
    [discriminate|].
  destruct (createPayloads E dataMap (mtd b)) as [[input streamInput] [e3|]];
    [discriminate|].
  intros H. injection H as <- <-. split; [reflexivity|].
  set (ctx := {| ctx_timeout := _; ctx_md := _ |}).
  set (s := peer E (wrap (cnt + 1))).
  destruct (IsClientStreaming (mtd b)), (IsServerStreaming (mtd b)); cbn.
  - unfold makeBidiRequest.
    pose proof (bidiSendLoop_no_invoke s streamInput 0) as Hs.
    destruct (invoke_err s); cbn.
    + eexists _, _, _. repeat split; constructor.
    + destruct (bidiSendLoop s streamInput 0) as [sent [e|]]; cbn in *.
      * eexists _, _, _. repeat split. exact Hs.
      * eexists _, _, _. repeat split. apply Forall_app. split; [exact Hs|].
        apply recvLoop_no_invoke.
  - unfold makeClientStreamingRequest.
    destruct (invoke_err s); cbn.
    + eexists _, _, _. repeat split; constructor.
    + eexists _, _, _. repeat split. apply clientSendLoop_no_invoke.
  - unfold makeServerStreamingRequest.
    destruct (invoke_err s); cbn.
    + eexists _, _, _. repeat split; constructor.
    + eexists _, _, _. repeat split. apply recvLoop_no_invoke.
  - eexists _, _, _. repeat split; constructor.
Qed.

Lemma makeRequest_one_invocation_witness :
  exists rest,
    makeRequest Samples.okEnv
      (mkRequester Samples.bidi "{}" "null" (Samples.options 4 2 0)) 6
    = (7, Some (OpInvokeRpcBidiStream Samples.ctx0 :: rest)) /\
    Forall (fun o' => is_invoke o' = false) rest.
Proof.
  destruct (makeRequest_one_invocation Samples.okEnv
              (mkRequester Samples.bidi "{}" "null" (Samples.options 4 2 0))
              6 7 _ eq_refl) as (_ & o & rest & md & Hl & Hrest & _).
  injection Hl as <- <-. eexists. split; [reflexivity|exact Hrest].
Defined.

(** *** The credentials of the connection *)

(** X15: the certificate file matters only for a secure connection with a
    non-blank [cert].  With [insecure] set, or with a blank [cert], the
    result of [connect] is the same whatever loading the file would give.
    When the file is needed and cannot be loaded, [connect] returns that
    error whatever the dial would give. *)
Theorem connect_credentials (E : Env) (b : Requester) :
  (forall loader,
     Insecure (config b) = true \/
     strings_TrimSpace E (Cert (config b)) = ""%string ->
     connect (with_loader E loader) b = connect E b) /\
  (forall dial e,
     Insecure (config b) = false ->
     strings_TrimSpace E (Cert (config b)) <> ""%string ->
     NewClientTLSFromFile E (Cert (config b)) (CName (config b)) = Some e ->
     connect (with_dial E dial) b = (None, Some e)).
Proof.
  split.
  - intros loader H. unfold connect, createClientCredOption. cbn.
    destruct (Insecure (config b)); [reflexivity|].
    destruct H as [H|H]; [discriminate|]. rewrite H. reflexivity.
  - intros dial e Hi Hc He. unfold connect, createClientCredOption. cbn.
    rewrite Hi.
    destruct (String.eqb_spec (strings_TrimSpace E (Cert (config b))) "");
      [contradiction|].
    cbn. rewrite He. reflexivity.
Qed.

Lemma connect_credentials_witness :
  connect (with_loader Samples.okEnv (fun _ _ => Some "no such file"%string))
    (mkRequester Samples.unary "{}" "null"
       (mkOptions "localhost:50051" "missing.pem" "" 4 2 0 0 20 10 0 true))
  = (Some (mkConn "localhost:50051"), None) /\
  connect (with_dial
             (with_loader Samples.okEnv (fun _ _ => Some "no such file"%string))
             Samples.dialFails)
    (mkRequester Samples.unary "{}" "null"
       (mkOptions "localhost:50051" "missing.pem" "" 4 2 0 0 20 10 0 false))
  = (None, Some "no such file"%string).
Proof.
  split.
  - rewrite (proj1 (connect_credentials Samples.okEnv _) _);
      [reflexivity|left; reflexivity].
  - apply (proj2 (connect_credentials
                    (with_loader Samples.okEnv
                       (fun _ _ => Some "no such file"%string)) _));
      [reflexivity|vm_compute; discriminate|reflexivity].
Defined.

(** *** The period of the ticker *)

(** X16: for [QPS] between 1 and one million the period of a worker's
    ticker is [1e6/QPS] microseconds with the fraction cut off.  It is
    between one microsecond and one second, and never longer than the [QPS]-th
    part of a second: the ticker fires at least [QPS] times a second.  A
    [QPS] above 500000 gives the period of one microsecond, the same as a
    [QPS] of one million. *)
Theorem tickPeriod_bounds (qps : Z) :
  0 < qps <= 1000000 ->
  tickPeriod qps = 1000 * (1000000 / qps) /\
  1000 <= tickPeriod qps <= 1000000000 /\
  tickPeriod qps * qps <= 1000000000 < (tickPeriod qps + 1000) * qps /\
  (500000 < qps -> tickPeriod qps = 1000).
Proof.
  intros H.
  assert (Hq : 1 <= 1000000 / qps <= 1000000).
  { split.
    - apply Z.div_le_lower_bound; lia.
    - apply Z.div_le_upper_bound; nia. }
  assert (Hp : tickPeriod qps = 1000 * (1000000 / qps)).
  { unfold tickPeriod, div. rewrite Z.quot_div_nonneg by lia.
    rewrite (wrap_small (1000000 / qps)) by (unfold maxInt; lia).
    rewrite wrap_small by (unfold maxInt; lia). lia. }
  pose proof (Z.div_mod 1000000 qps ltac:(lia)) as Hdm.
  pose proof (Z.mod_pos_bound 1000000 qps ltac:(lia)) as Hmod.
  rewrite Hp. split; [reflexivity|]. split; [lia|]. split; [nia|].
  intros Hbig. assert (1000000 / qps < 2)
    by (apply Z.div_lt_upper_bound; lia). lia.
Qed.

Lemma tickPeriod_bounds_witness :
  tickPeriod 3 = 333333000 /\ tickPeriod 600000 = 1000.
Proof.
  destruct (tickPeriod_bounds 3 ltac:(lia)) as (H3 & _).
  destruct (tickPeriod_bounds 600000 ltac:(lia)) as (_ & _ & _ & H6).
  split; [rewrite H3; reflexivity|apply H6; lia].
Defined.

Lemma worker_step_parked_counter E b p w p' w' n0 :
  Parked n0 w -> worker_step E b p w = Some (p', w') ->
  reqCounter p' = reqCounter p.
Proof.
  intros (_ & _ & _ & Hpc) Hstep. unfold worker_step in Hstep.
  destruct Hpc as [Hpc|[Hpc|Hpc]]; rewrite Hpc in Hstep.
  - destruct (QPS (config b) >? 0).
    + destruct (time_Tick _ _) as [t ts]. injection Hstep as <- <-.
      reflexivity.
    + injection Hstep as <- <-. reflexivity.
  - destruct (w_i w <? w_n w).
    + destruct (chan_recv (stopCh p)) as [[x ch]|]; injection Hstep as <- <-;
        reflexivity.
    + injection Hstep as <- <-. reflexivity.
  - destruct (w_throttle w) as [t|]; [|discriminate].
    destruct (tickers p !! t) as [tk|]; [|discriminate].
    destruct (pending tk); [|discriminate].
    injection Hstep as <- <-. reflexivity.
Qed.

(** X17: with [QPS] above one million the period [1e6/QPS] is zero and
    [time.Tick] returns the nil channel.  In a run that is not stopped, with
    at least one call for each worker to make, the workers never all return
    and not one call is started. *)
Theorem fast_qps_no_call (E : Env) (b : Requester) (sched : list action)
  (res : chan callResult) (stop : chan bool) :
  1000000 < QPS (config b) <= maxInt ->
  1 <= C (config b) ->
  0 < div (N (config b)) (C (config b)) ->
  Forall nonstop sched -> buf stop = [] ->
  all_done (exec E b sched (runWorkers_init b res stop)) = false /\
  reqCounter (exec E b sched (runWorkers_init b res stop)) = 0.
Proof.
  intros Hq HC Hn0 Hsched Hstop.
  split; [now apply fast_qps_blocks|].
  set (n0 := div (N (config b)) (C (config b))) in *.
  pose (I := fun p : pool =>
              buf (stopCh p) = [] /\ reqCounter p = 0 /\
              Forall (Parked n0) (workers p)).
  assert (HI : I (exec E b sched (runWorkers_init b res stop))).
  { apply (exec_invariant E b I nonstop); [|assumption|].
    - intros p a Ha (Hs & Hc & HP). unfold I.
      destruct a as [k|t| |]; cbn.
      + destruct (workers p !! k) as [w|] eqn:Hk; [|auto].
        destruct (worker_step E b p w) as [[p' w']|] eqn:Hstep; [|auto].
        pose proof (proj1 (Forall_lookup _ _) HP k w Hk) as Hw.
        destruct (worker_step_parked E b p w p' w' n0 Hq Hn0 Hs Hw Hstep)
          as [Hs' Hw'].
        pose proof (worker_step_parked_counter E b p w p' w' n0 Hw Hstep)
          as Hc'.
        apply worker_step_inv in Hstep as (Hws & _). cbn. rewrite Hws.
        split; [assumption|]. split; [congruence|].
        apply Forall_insert; assumption.
      + destruct (tickers p !! t); auto.
      + now destruct Ha.
      + destruct (chan_recv (results p)) as [[r ch]|]; auto.
    - unfold I. cbn. split; [assumption|]. split; [reflexivity|].
      apply Forall_replicate. unfold Parked. cbn. auto 10. }
  apply HI.
Qed.

Lemma fast_qps_no_call_witness :
  let p := exec Samples.okEnv (Samples.requester 4 2 2000000)
             (Samples.sched_two_workers ++ [ATick 0; AReport; AWorker 0])
             (Samples.pool2 (Samples.requester 4 2 2000000)) in
  all_done p = false /\ reqCounter p = 0.
Proof.
  apply fast_qps_no_call.
  - vm_compute. split; [reflexivity|discriminate].
  - cbn. lia.
  - vm_compute. reflexivity.
  - repeat constructor; discriminate.
  - reflexivity.
Defined.

(** *** A concurrency that is not positive *)

(** X18: [Run] panics on a negative [C], before it connects; with [C = 0]
    it starts no worker, divides nothing and returns at once, whatever [N]
    is, without a call having been made. *)
Theorem Run_no_workers (E : Env) (b : Requester) (sched : list action) :
  (C (config b) < 0 -> Run E b sched = RunPanic) /\
  (C (config b) = 0 -> (connect E b).2 = None ->
   exists p,
     Run_pool E b sched = Some p /\ workers p = [] /\ reqCounter p = 0 /\
     Run E b sched
     = RunReturn (Some (Finish p)) None
         [StConnect; StReporter; StWorkers; StFinish; StClose]).
Proof.
  split.
  - intros Hneg. unfold Run.
    destruct (make (min (mul (C (config b)) 1000) maxResult)); [|reflexivity].
    unfold make. destruct (Z.ltb_spec (C (config b)) 0); [reflexivity|lia].
  - intros Hz Hconn.
    pose proof (Run_pool_value E b sched ltac:(lia)
                  ltac:(rewrite Hz; vm_compute; discriminate)) as Hp.
    eexists. split; [exact Hp|].
    set (p0 := runWorkers_init b _ _) in *.
    assert (HI : workers (exec E b sched p0) = [] /\
                 reqCounter (exec E b sched p0) = 0).
    { apply (exec_invariant E b
               (fun p => workers p = [] /\ reqCounter p = 0) (fun _ => True)).
      - intros p a _ [Hw Hc]. destruct a as [k|t| |]; cbn.
        + rewrite Hw. cbn. auto.
        + destruct (tickers p !! t); auto.
        + destruct (chan_send (stopCh p) true); auto.
        + destruct (chan_recv (results p)) as [[r ch]|]; auto.
      - apply Forall_true. auto.
      - unfold p0. cbn. rewrite Hz. auto. }
    destruct HI as [Hw Hc]. split; [exact Hw|]. split; [exact Hc|].
    rewrite (Run_value E b sched _ ltac:(lia)
               ltac:(rewrite Hz; vm_compute; discriminate) Hconn Hp).
    unfold all_done. rewrite Hw. reflexivity.
Qed.

Lemma Run_no_workers_witness :
  Run Samples.okEnv (Samples.requester 7 (-1) 0) [AWorker 0] = RunPanic /\
  Run Samples.okEnv (Samples.requester 7 0 0) [AWorker 0; AReport]
  = RunReturn (Some (mkReport 0 [])) None
      [StConnect; StReporter; StWorkers; StFinish; StClose].
Proof.
  split.
  - apply (proj1 (Run_no_workers Samples.okEnv (Samples.requester 7 (-1) 0)
                    [AWorker 0])).
    cbn. lia.
  - destruct (proj2 (Run_no_workers Samples.okEnv (Samples.requester 7 0 0)
                       [AWorker 0; AReport]) eq_refl eq_refl)
      as (p & Hp & _ & _ & Hrun).
    rewrite Hrun. injection Hp as <-. vm_compute. reflexivity.
Defined.

(** *** The number of calls *)

Lemma sum_list_le {A} (f : A -> nat) (l : list A) c :
  Forall (fun x => (f x <= c)%nat) l ->
  (sum_list (map f l) <= length l * c)%nat.
Proof.
  induction 1 as [|x l Hx _ IH]; simpl; lia.
Qed.

Lemma Wok_requests qp n0 w :
  Wok qp n0 w -> Z.of_nat (requests w) <= Z.max 0 n0.
Proof.
  intros Hw. pose proof (wok_requests _ _ _ Hw) as Hr.
  pose proof (wok_i _ _ _ Hw) as Hi. pose proof (wok_mid _ _ _ Hw) as Hm.
  unfold emitting in Hr. destruct (w_pc w); cbn in Hr; lia.
Qed.

Lemma exec_workers_length E b sched res stop :
  length (workers (exec E b sched (runWorkers_init b res stop)))
  = Z.to_nat (C (config b)).
Proof.
  rewrite (proj1 (exec_length E b sched _)). cbn. apply length_replicate.
Qed.

(** X19: whatever the schedule, stopped or not, no worker starts more than
    [N / C] calls, so the pool never starts more than [N] calls; and when
    [N] is less than [C] it starts none at all. *)
Theorem calls_bounded (E : Env) (b : Requester) (sched : list action)
  (res : chan callResult) (stop : chan bool) :
  1 <= C (config b) ->
  0 <= N (config b) <= maxInt ->
  let p := exec E b sched (runWorkers_init b res stop) in
  Forall (fun w => Z.of_nat (requests w) <= N (config b) / C (config b))
    (workers p) /\
  Z.of_nat (total_requests p) <= N (config b) /\
  (N (config b) < C (config b) -> total_requests p = 0%nat).
Proof.
  intros HC HN p.
  pose proof (exec_Wok E b sched res stop) as HW. fold p in HW.
  rewrite (div_nonneg _ _ HN HC) in HW.
  assert (Hq : 0 <= N (config b) / C (config b)) by (apply Z.div_pos; lia).
  assert (Hall : Forall (fun w => (requests w
                                   <= Z.to_nat (N (config b) / C (config b)))%nat)
                   (workers p)).
  { eapply Forall_impl; [exact HW|]. cbn. intros w Hw.
    apply Wok_requests in Hw. lia. }
  pose proof (sum_list_le requests _ _ Hall) as Hsum.
  fold (total_requests p) in Hsum.
  unfold p in Hsum at 2. rewrite exec_workers_length in Hsum.
  assert (Hmul : C (config b) * (N (config b) / C (config b)) <= N (config b))
    by (apply Z.mul_div_le; lia).
  split; [|split].
  - eapply Forall_impl; [exact Hall|]. cbn. intros w Hw. lia.
  - nia.
  - intros Hlt. rewrite Z.div_small in Hsum by lia. cbn in Hsum. lia.
Qed.

Lemma calls_bounded_witness :
  let p := exec Samples.okEnv (Samples.requester 5 2 0)
             (AStopSend :: Samples.sched_two_workers)
             (Samples.pool2 (Samples.requester 5 2 0)) in
  Z.of_nat (total_requests p) <= 5 /\ total_requests p = 2%nat.
Proof.
  intros p.
  destruct (calls_bounded Samples.okEnv (Samples.requester 5 2 0)
              (AStopSend :: Samples.sched_two_workers)
              (mkChan 2000 []) (mkChan 2 [])) as (_ & H & _).
  - cbn. lia.
  - vm_compute. split; discriminate.
  - split; [exact H|vm_compute; reflexivity].
Defined.

(** *** The call numbers *)

Lemma makeRequest_fst E b cnt : (makeRequest E b cnt).1 = wrap (cnt + 1).
Proof.
  unfold makeRequest. cbn zeta.
  destruct (executeData E _ _) as [dataMap [e1|]]; [reflexivity|].
  destruct (executeMetadata E _ _) as [mdMap [e2|]]; [reflexivity|].
  destruct (createPayloads E _ _) as [[input streamInput] [e3|]]; reflexivity.
Qed.

Lemma worker_step_requests E b p w p' w' :
  worker_step E b p w = Some (p', w') ->
  (reqCounter p' = reqCounter p /\ req_nums w' = req_nums w /\
   requests w' = requests w) \/
  (reqCounter p' = wrap (reqCounter p + 1) /\
   req_nums w' = reqCounter p' :: req_nums w /\
   requests w' = S (requests w)).
Proof.
  destruct w as [c i n t log]. intros Hstep.
  destruct c; cbn in *.
  4:{ pose proof (makeRequest_fst E b (reqCounter p)) as Hfst.
      destruct (makeRequest E b (reqCounter p)) as [reqNum [l|]];
        cbn in Hfst; subst reqNum; injection Hstep as <- <-;
        right; unfold req_nums, requests; cbn; auto. }
  all: wstep_cases Hstep; cbn.
  all: unfold req_nums, requests; cbn; auto.
Qed.

Lemma concat_insert_same {A B} (f : A -> list B) (l : list A) k x y :
  l !! k = Some x -> f y = f x ->
  concat (map f (<[k:=y]> l)) = concat (map f l).
Proof.
  revert k. induction l as [|a l IH]; intros k Hk Hf; [discriminate|].
  destruct k as [|k].
  - cbn in Hk. injection Hk as ->. cbn. rewrite Hf. reflexivity.
  - change (<[S k:=y]> (a :: l)) with (a :: <[k:=y]> l).
    cbn [map concat]. rewrite (IH k Hk Hf). reflexivity.
Qed.

Lemma concat_insert_cons {A B} (f : A -> list B) (l : list A) k x y z :
  l !! k = Some x -> f y = z :: f x ->
  concat (map f (<[k:=y]> l)) ≡ₚ z :: concat (map f l).
Proof.
  revert k. induction l as [|a l IH]; intros k Hk Hf; [discriminate|].
  destruct k as [|k].
  - cbn in Hk. injection Hk as ->. cbn. rewrite Hf. reflexivity.
  - change (<[S k:=y]> (a :: l)) with (a :: <[k:=y]> l).
    cbn [map concat]. rewrite (IH k Hk Hf). symmetry.
    apply Permutation_middle.
Qed.

Lemma step_numbered E b n0 p a :
  Z.of_nat (length (workers p)) * Z.max 0 n0 <= maxInt ->
  Forall (Wok (QPS (config b) >? 0) n0) (workers p) ->
  numbered p -> numbered (step E b p a).
Proof.
  intros Hbound HW [Hcnt Hperm].
  pose proof (step_Wok E b n0 p a HW) as HW'.
  pose proof (proj1 (step_length E b p a)) as Hlen.
  destruct a as [k|t| |]; cbn in *.
  - destruct (workers p !! k) as [w|] eqn:Hk; [|split; assumption].
    destruct (worker_step E b p w) as [[p' w']|] eqn:Hstep;
      [|split; assumption].
    pose proof (worker_step_requests E b p w p' w' Hstep) as Hcases.
    apply worker_step_inv in Hstep as (Hws & _).
    cbn in HW', Hlen. rewrite Hws in HW', Hlen.
    unfold numbered, total_requests, all_req_nums in *. cbn. rewrite Hws.
    pose proof (sum_list_insert requests (workers p) k w w' Hk) as Hsum.
    destruct Hcases as [(Hc & Hn & Hr)|(Hc & Hn & Hr)].
    + rewrite (concat_insert_same req_nums _ _ w w' Hk Hn). rewrite Hc.
      split; [lia|assumption].
    + assert (Hle : Z.of_nat (sum_list (map requests (<[k:=w']> (workers p))))
                    <= maxInt).
      { pose proof (sum_list_le requests (<[k:=w']> (workers p))
                      (Z.to_nat (Z.max 0 n0))) as Hs.
        rewrite Hlen in Hs.
        assert (Hall : Forall (fun x => (requests x <= Z.to_nat (Z.max 0 n0))%nat)
                         (<[k:=w']> (workers p))).
        { eapply Forall_impl; [exact HW'|]. cbn. intros x Hx.
          apply Wok_requests in Hx. lia. }
        specialize (Hs Hall). nia. }
      assert (Hwrap : wrap (reqCounter p + 1) = reqCounter p + 1)
        by (apply wrap_small; unfold maxInt in *; lia).
      rewrite Hwrap in Hc. rewrite Hc in Hn |- *. split; [lia|].
      rewrite (concat_insert_cons req_nums _ _ w w' _ Hk Hn), Hperm.
      rewrite (seqZ_app 1 (reqCounter p) 1) by lia.
      rewrite Permutation_cons_append.
      replace (1 + reqCounter p) with (reqCounter p + 1) by lia.
      reflexivity.
  - destruct (tickers p !! t); split; assumption.
  - destruct (chan_send (stopCh p) true); split; assumption.
  - destruct (chan_recv (results p)) as [[r ch]|]; split; assumption.
Qed.

(** X20: in every run, stopped or not, the call numbers the workers draw
    from the shared counter are the numbers 1, 2, ... up to the counter, each
    drawn once: no two calls have the same number and none is skipped. *)
Theorem call_numbers (E : Env) (b : Requester) (sched : list action)
  (res : chan callResult) (stop : chan bool) :
  1 <= C (config b) ->
  0 <= N (config b) <= maxInt ->
  let p := exec E b sched (runWorkers_init b res stop) in
  reqCounter p = Z.of_nat (total_requests p) /\
  all_req_nums p ≡ₚ seqZ 1 (reqCounter p) /\
  NoDup (all_req_nums p) /\
  (forall n, n ∈ all_req_nums p <-> 1 <= n <= reqCounter p).
Proof.
  intros HC HN p.
  set (n0 := div (N (config b)) (C (config b))).
  set (L := Z.to_nat (C (config b))).
  pose (I := fun q : pool =>
              length (workers q) = L /\
              Forall (Wok (QPS (config b) >? 0) n0) (workers q) /\
              numbered q).
  assert (HI : I p).
  { apply (exec_invariant E b I (fun _ => True)).
    - intros q a _ (Hlen & HW & Hnum). unfold I. split; [|split].
      + rewrite (proj1 (step_length E b q a)). exact Hlen.
      + now apply step_Wok.
      + apply (step_numbered E b n0); [|assumption|assumption].
        rewrite Hlen. unfold L, n0. rewrite (div_nonneg _ _ HN HC).
        assert (0 <= N (config b) / C (config b)) by (apply Z.div_pos; lia).
        assert (C (config b) * (N (config b) / C (config b)) <= N (config b))
          by (apply Z.mul_div_le; lia).
        nia.
    - apply Forall_true. auto.
    - unfold I. split; [|split].
      + cbn. apply length_replicate.
      + cbn. apply Forall_replicate.
        constructor; cbn; auto; try lia; try discriminate.
      + unfold numbered, total_requests, all_req_nums. cbn. split.
        * rewrite (sum_list_const requests _ 0%nat)
            by (apply Forall_replicate; reflexivity).
          lia.
        * induction (Z.to_nat (C (config b))) as [|m IH]; [reflexivity|].
          cbn. exact IH. }
  destruct HI as (_ & _ & Hcnt & Hperm).
  split; [exact Hcnt|]. split; [exact Hperm|]. split.
  - rewrite Hperm. apply NoDup_seqZ.
  - intros n. rewrite Hperm, elem_of_seqZ. lia.
Qed.

Lemma call_numbers_witness :
  let p := exec Samples.okEnv (Samples.requester 5 2 0)
             Samples.sched_two_workers
             (Samples.pool2 (Samples.requester 5 2 0)) in
  all_req_nums p = [2; 1; 4; 3] /\ NoDup (all_req_nums p) /\
  reqCounter p = 4.
Proof.
  intros p.
  destruct (call_numbers Samples.okEnv (Samples.requester 5 2 0)
              Samples.sched_two_workers (mkChan 2000 []) (mkChan 2 []))
    as (_ & _ & Hnd & _).
  - cbn. lia.
  - vm_compute. split; discriminate.
  - split; [vm_compute; reflexivity|]. split; [exact Hnd|].
    vm_compute. reflexivity.
Defined.

(** *** Stop *)

(** The sentinels in the stop channel and those the workers have taken. *)
Lemma worker_step_stop E b p w p' w' :
  worker_step E b p w = Some (p', w') ->
  (length (buf (stopCh p')) + stopped w'
   = length (buf (stopCh p)) + stopped w)%nat /\
  cap (stopCh p') = cap (stopCh p).
Proof.
  destruct w as [c i n t log]. intros Hstep.
  destruct c; cbn in *.
  all: wstep_cases Hstep; cbn.
  all: unfold statsHandler_emit, chan_send, chan_recv, time_Tick in *.
  all: repeat match goal with
       | H : context [if ?x then _ else _] |- _ => destruct x eqn:?
       | H : context [match ?x with _ => _ end] |- _ => destruct x eqn:?
       end.
  all: repeat match goal with
       | H : Some _ = Some _ |- _ => injection H as ? ?; subst
       | H : Sent _ = Sent _ |- _ => injection H as ?; subst
       | H : (_, _) = (_, _) |- _ => injection H as ? ?; subst
       end; try discriminate.
  all: unfold stopped; cbn; split; try reflexivity; try lia.
  all: match goal with H : buf _ = _ :: _ |- _ => rewrite H end; cbn; lia.
Qed.

Lemma step_stop E b p a :
  cap (stopCh (step E b p a)) = cap (stopCh p) /\
  (length (buf (stopCh (step E b p a))) + total_stopped (step E b p a)
   = length (buf (stopCh p)) + total_stopped p
     + (if is_stop_send a
        then if (length (buf (stopCh p)) <? cap (stopCh p))%nat then 1 else 0
        else 0))%nat.
Proof.
  unfold total_stopped. destruct a as [k|t| |]; cbn [step is_stop_send].
  - destruct (workers p !! k) as [w|] eqn:Hk; [|split; [reflexivity|lia]].
    destruct (worker_step E b p w) as [[p' w']|] eqn:Hstep;
      [|split; [reflexivity|lia]].
    destruct (worker_step_stop E b p w p' w' Hstep) as [Hq Hcap].
    apply worker_step_inv in Hstep as (Hws & _).
    cbn. rewrite Hws. split; [exact Hcap|].
    pose proof (sum_list_insert stopped (workers p) k w w' Hk). lia.
  - destruct (tickers p !! t); split; cbn; try reflexivity; lia.
  - unfold chan_send.
    destruct (length (buf (stopCh p)) <? cap (stopCh p))%nat;
      cbn [stopCh buf cap workers]; (split; [reflexivity|]);
      rewrite ?length_app; cbn [length]; lia.
  - destruct (chan_recv (results p)) as [[r ch]|]; split; cbn;
      try reflexivity; lia.
Qed.

Lemma exec_stop E b sched : forall p,
  (length (buf (stopCh p)) + total_stopped p + stop_sends sched
   <= cap (stopCh p))%nat ->
  cap (stopCh (exec E b sched p)) = cap (stopCh p) /\
  (length (buf (stopCh (exec E b sched p))) + total_stopped (exec E b sched p)
   = length (buf (stopCh p)) + total_stopped p + stop_sends sched)%nat.
Proof.
  induction sched as [|a sched IH]; intros p Hle.
  - cbn. split; [reflexivity|]. unfold stop_sends. cbn. lia.
  - change (exec E b (a :: sched) p) with (exec E b sched (step E b p a)).
    destruct (step_stop E b p a) as [Hcap Hq].
    assert (Hs : stop_sends (a :: sched)
                 = ((if is_stop_send a then 1 else 0) + stop_sends sched)%nat).
    { unfold stop_sends. cbn. destruct (is_stop_send a); reflexivity. }
    rewrite Hs in *.
    assert (Hstep : (length (buf (stopCh (step E b p a)))
                     + total_stopped (step E b p a)
                     = length (buf (stopCh p)) + total_stopped p
                       + (if is_stop_send a then 1 else 0))%nat).
    { rewrite Hq. destruct (is_stop_send a); [|reflexivity].
      destruct (Nat.ltb_spec (length (buf (stopCh p))) (cap (stopCh p)));
        [reflexivity|lia]. }
    destruct (IH (step E b p a)) as [Hcap' Hq'].
    + rewrite Hcap, Hstep. lia.
    + split; [congruence|]. rewrite Hq', Hstep. lia.
Qed.

Lemma total_stopped_init b res stop :
  total_stopped (runWorkers_init b res stop) = 0%nat.
Proof.
  unfold total_stopped. cbn.
  rewrite (sum_list_const stopped _ 0%nat)
    by (apply Forall_replicate; reflexivity).
  lia.
Qed.

(** X21: the sends of one [Stop] never block.  In a run with at most [C]
    sends on the stop channel, every sentinel sent is either still in the
    channel or has been taken by a worker, whatever the workers do in
    between. *)
Theorem Stop_never_blocks (E : Env) (b : Requester) (sched : list action)
  (res : chan callResult) :
  (stop_sends sched <= Z.to_nat (C (config b)))%nat ->
  let p := exec E b sched
             (runWorkers_init b res (mkChan (Z.to_nat (C (config b))) [])) in
  (length (buf (stopCh p)) + total_stopped p = stop_sends sched)%nat.
Proof.
  intros Hle p.
  destruct (exec_stop E b sched
              (runWorkers_init b res (mkChan (Z.to_nat (C (config b))) [])))
    as [_ Hq].
  - rewrite total_stopped_init. cbn. lia.
  - fold p in Hq. rewrite Hq, total_stopped_init. cbn. lia.
Qed.

Lemma Stop_never_blocks_witness :
  let b := Samples.requester 5 2 0 in
  let p := exec Samples.okEnv b
             ([AWorker 0; AWorker 1; AWorker 0] ++ Stop b ++ [AWorker 1])
             (runWorkers_init b (mkChan 2000 []) (mkChan 2 [])) in
  length (buf (stopCh p)) = 1%nat /\ total_stopped p = 1%nat.
Proof.
  intros b p.
  pose proof (Stop_never_blocks Samples.okEnv b
                ([AWorker 0; AWorker 1; AWorker 0] ++ Stop b ++ [AWorker 1])
                (mkChan 2000 []) ltac:(vm_compute; lia)) as H.
  assert (Hs : total_stopped p = 1%nat) by (vm_compute; reflexivity).
  split; [|exact Hs].
  change (length (buf (stopCh p)) + total_stopped p = 2)%nat in H. lia.
Defined.

Lemma ordered_stop_first qp e older :
  ordered qp (e :: older) = true -> List.filter is_stop older = [].
Proof.
  revert e. induction older as [|e' older IH]; intros e Ho; [reflexivity|].
  cbn in Ho. apply andb_true_iff in Ho as [Hf Ho].
  cbn [List.filter]. rewrite (IH e' Ho).
  destruct e'; cbn; try reflexivity.
  destruct e as [| | | |? [?|]| |]; discriminate.
Qed.

(** A worker takes at most one sentinel, and none before it returns. *)
Lemma Wok_stopped qp n0 w :
  Wok qp n0 w ->
  (stopped w <= 1)%nat /\ (w_pc w <> PDone -> stopped w = 0%nat).
Proof.
  intros Hw. pose proof (wok_order _ _ _ Hw) as Ho.
  pose proof (wok_head _ _ _ Hw) as Hh. unfold stopped.
  destruct (w_log w) as [|e older]; [cbn; split; [lia|reflexivity]|].
  cbn [List.filter]. rewrite (ordered_stop_first qp e older Ho) in *.
  destruct (is_stop e) eqn:He; cbn; rewrite ?(ordered_stop_first qp e older Ho);
    cbn; (split; [lia|]); [|reflexivity].
  intros Hpc. destruct e; try discriminate. cbn in Hh.
  destruct (w_pc w); try discriminate. congruence.
Qed.

Lemma sum_list_spare {A} (f : A -> nat) (l : list A) k x :
  Forall (fun y => (f y <= 1)%nat) l -> l !! k = Some x -> f x = 0%nat ->
  (sum_list (map f l) < length l)%nat.
Proof.
  intros Hall. revert k. induction Hall as [|a l Ha Hall IH]; intros k Hk Hx;
    [discriminate|].
  destruct k as [|k]; simpl in *.
  - injection Hk as ->. pose proof (sum_list_le f l 1 Hall). lia.
  - specialize (IH k Hk Hx). lia.
Qed.

(** X22: once [Stop] has sent its [C] sentinels, a worker that comes to its
    loop with calls still to make finds one of them: its next step takes the
    sentinel and returns, and it starts no further call. *)
Theorem Stop_ends_worker (E : Env) (b : Requester) (sched : list action)
  (res : chan callResult) (k : nat) (w : worker) :
  stop_sends sched = Z.to_nat (C (config b)) ->
  let p := exec E b sched
             (runWorkers_init b res (mkChan (Z.to_nat (C (config b))) [])) in
  workers p !! k = Some w ->
  w_pc w = PLoop ->
  w_i w < w_n w ->
  exists w',
    workers (step E b p (AWorker k)) !! k = Some w' /\
    w_pc w' = PDone /\ w_log w' = EvStop :: w_log w /\
    requests w' = requests w.
Proof.
  intros Hsends p Hk Hpc Hlt.
  assert (Hq : (length (buf (stopCh p)) + total_stopped p
                = stop_sends sched)%nat).
  { destruct (exec_stop E b sched
                (runWorkers_init b res (mkChan (Z.to_nat (C (config b))) [])))
      as [_ Hq].
    - rewrite total_stopped_init. cbn. lia.
    - fold p in Hq. rewrite Hq, total_stopped_init. cbn. lia. }
  pose proof (exec_Wok E b sched res
                (mkChan (Z.to_nat (C (config b))) [])) as HW. fold p in HW.
  pose proof (exec_workers_length E b sched res
                (mkChan (Z.to_nat (C (config b))) [])) as Hlen.
  fold p in Hlen.
  assert (Hspare : (total_stopped p < length (workers p))%nat).
  { apply (sum_list_spare stopped (workers p) k w).
    - eapply Forall_impl; [exact HW|]. cbn. intros x Hx.
      apply (Wok_stopped _ _ _ Hx).
    - exact Hk.
    - apply (Wok_stopped _ _ _ (proj1 (Forall_lookup _ _) HW k w Hk)).
      congruence. }
  destruct (buf (stopCh p)) as [|x rest] eqn:Hbuf.
  { change (length (@nil bool)) with 0%nat in Hq. lia. }
  assert (Hs : worker_step E b p w = Some
            (mkPool (mkChan (cap (stopCh p)) rest) (reqCounter p) (tickers p)
               (results p) (reported p) (workers p),
             mkWorker PDone (w_i w) (w_n w) (w_throttle w)
               (EvStop :: w_log w))).
  { unfold worker_step, chan_recv. rewrite Hpc, Hbuf.
    destruct (Z.ltb_spec (w_i w) (w_n w)); [reflexivity|lia]. }
  rewrite (step_worker _ _ _ _ _ _ _ Hk Hs). cbn.
  eexists. split.
  - apply list_lookup_insert_eq. eapply lookup_lt_Some; eassumption.
  - cbn. auto.
Qed.

Lemma Stop_ends_worker_witness :
  let b := Samples.requester 5 2 0 in
  let p := exec Samples.okEnv b ([AWorker 0; AWorker 1] ++ Stop b)
             (runWorkers_init b (mkChan 2000 []) (mkChan 2 [])) in
  exists w',
    workers (step Samples.okEnv b p (AWorker 1)) !! 1%nat = Some w' /\
    w_pc w' = PDone /\ requests w' = 0%nat.
Proof.
  intros b p.
  destruct (Stop_ends_worker Samples.okEnv b ([AWorker 0; AWorker 1] ++ Stop b)
              (mkChan 2000 []) 1%nat
              (mkWorker PLoop 0 2 None [EvStart None]))
    as (w' & Hw' & Hpc & _ & Hr).
  - vm_compute. reflexivity.
  - vm_compute. reflexivity.
  - reflexivity.
  - cbn. lia.
  - exists w'. split; [exact Hw'|]. split; [exact Hpc|]. rewrite Hr.
    reflexivity.
Defined.

(** *** No rate limit *)

Lemma ordered_no_throttle l :
  ordered false l = true -> List.filter is_throttle l = [].
Proof.
  induction l as [|e l IH]; [reflexivity|].
  cbn. intros Ho. apply andb_true_iff in Ho as [Hf Ho].
  rewrite (IH Ho). destruct e; try reflexivity.
  cbn in Hf. destruct (head l) as [[]|]; discriminate.
Qed.

(** X23: a [QPS] of zero, or a negative one, means no rate limit: no ticker
    is ever made, no worker holds a throttle, and no worker ever waits. *)
Theorem unthrottled_never_waits (E : Env) (b : Requester)
  (sched : list action) (res : chan callResult) (stop : chan bool) :
  QPS (config b) <= 0 ->
  let p := exec E b sched (runWorkers_init b res stop) in
  tickers p = [] /\
  Forall (fun w => w_throttle w = None /\ waits w = 0%nat /\ w_pc w <> PWait)
    (workers p).
Proof.
  intros Hq p.
  assert (Hqp : (QPS (config b) >? 0) = false) by lia.
  set (n0 := div (N (config b)) (C (config b))).
  pose (I := fun q : pool =>
              tickers q = [] /\
              Forall (Wok (QPS (config b) >? 0) n0) (workers q)).
  assert (HI : I p).
  { apply (exec_invariant E b I (fun _ => True)).
    - intros q a _ (Ht & HW). unfold I.
      split; [|now apply step_Wok].
      pose proof (step_Wok E b n0 q a HW) as HW'.
      destruct a as [k|t| |]; cbn in *.
      + destruct (workers q !! k) as [w|] eqn:Hk; [|assumption].
        destruct (worker_step E b q w) as [[q' w']|] eqn:Hstep; [|assumption].
        pose proof (proj1 (Forall_lookup _ _) HW k w Hk) as Hw.
        pose proof (lookup_lt_Some _ _ _ Hk) as Hlt.
        apply worker_step_inv in Hstep
          as (Hws & _ & _ & _ & Hcases).
        cbn in HW' |- *. rewrite Hws in HW'.
        assert (Hw' : Wok (QPS (config b) >? 0) n0 w').
        { apply (proj1 (Forall_lookup _ _) HW' k w').
          apply list_lookup_insert_eq. exact Hlt. }
        pose proof (wok_throttle _ _ _ Hw Hqp) as Hth.
        pose proof (wok_throttle _ _ _ Hw' Hqp) as Hth'.
        destruct Hcases as [(-> & _)|[(_ & _ & -> & _)|[(_ & Hs & _)|
                            (t & tk & Hs & _)]]]; try assumption; congruence.
      + clear HW'. rewrite Ht. assert (Hn : @nil ticker !! t = None)
          by apply lookup_nil.
        rewrite Hn. exact Ht.
      + destruct (chan_send (stopCh q) true); assumption.
      + destruct (chan_recv (results q)) as [[r ch]|]; assumption.
    - apply Forall_true. auto.
    - split; [reflexivity|apply (exec_Wok E b [] res stop)]. }
  destruct HI as [Ht HW]. split; [exact Ht|].
  eapply Forall_impl; [exact HW|]. cbn. intros w Hw. rewrite Hqp in Hw.
  split; [exact (wok_throttle _ _ _ Hw eq_refl)|]. split.
  - unfold waits. rewrite (ordered_no_throttle _ (wok_order _ _ _ Hw)).
    reflexivity.
  - intros Hpc. pose proof (wok_head _ _ _ Hw) as Hh. rewrite Hpc in Hh.
    cbn in Hh. destruct (head (w_log w)) as [[]|]; discriminate.
Qed.

Lemma unthrottled_never_waits_witness :
  let p := exec Samples.okEnv (Samples.requester 5 2 (-3))
             (ATick 0 :: Samples.sched_two_workers)
             (Samples.pool2 (Samples.requester 5 2 (-3))) in
  tickers p = [] /\ map issued_calls (workers p) = [2%nat; 2%nat].
Proof.
  intros p. split; [|vm_compute; reflexivity].
  apply (unthrottled_never_waits Samples.okEnv (Samples.requester 5 2 (-3))
           (ATick 0 :: Samples.sched_two_workers) (mkChan 2000 [])
           (mkChan 2 [])).
  cbn. lia.
Defined.

End GhzExtra.

